(** * The SFTP client of vscode-deploy-reloaded

    A shallow embedding of [src/clients/sftp.ts]: the path conversion
    [toSFTPPath], the host verifier built by [openConnection], and the
    operations of [SFTPClient] ([uploadFile], [downloadFile],
    [listDirectory], [deleteFile]).

    Conventions of the model:
    - JavaScript strings are Rocq [string]s (8-bit characters; the texts the
      client handles here are paths, digests and mode strings);
    - a [Promise] that settles is a value of [Res]: [Ok v] for a resolved
      promise, [Throw e] for a rejected one, [Pending] for one that never
      settles; [await] is the bind of the monad [M];
    - one operation runs at a time on a session, as the client is used by its
      callers; the remote side is threaded through the state, and every
      call on the transport and every log line is recorded as an [Event]. *)

From Stdlib Require Import ZArith Lia Ascii String List Bool Sorted.
From stdpp Require Import base option list strings gmap pretty.

Local Open Scope string_scope.
Local Open Scope list_scope.

(** ** ECMAScript built-ins used by the client *)

Module JS.

(** Characters removed by [String.prototype.trim] (the 8-bit ones):
    TAB, LF, VT, FF, CR and SPACE. *)
Definition isWhiteSpace (c : ascii) : bool :=
  let n := nat_of_ascii c in
  ((9 <=? n)%nat && (n <=? 13)%nat) || (n =? 32)%nat.

Fixpoint trimStart (cs : list ascii) : list ascii :=
  match cs with
  | c :: cs' => if isWhiteSpace c then trimStart cs' else cs
  | [] => []
  end.

Definition trimEnd (cs : list ascii) : list ascii :=
  rev (trimStart (rev cs)).

(** [s.trim()] *)
Definition trim (s : string) : string :=
  string_of_list_ascii (trimEnd (trimStart (list_ascii_of_string s))).

Definition lowerChar (c : ascii) : ascii :=
  let n := nat_of_ascii c in
  if ((65 <=? n)%nat && (n <=? 90)%nat) then ascii_of_nat (n + 32) else c.

(** [s.toLowerCase()] *)
Definition toLowerCase (s : string) : string :=
  string_of_list_ascii (map lowerChar (list_ascii_of_string s)).

(** [s.startsWith(p)] *)
Definition startsWith (p s : string) : bool := String.prefix p s.

(** A JavaScript number that is an integer, or [NaN]. *)
Inductive Num : Type :=
| NaN : Num
| Int (z : Z) : Num.

Definition octDigit (c : ascii) : option Z :=
  let n := nat_of_ascii c in
  if ((48 <=? n)%nat && (n <=? 55)%nat) then Some (Z.of_nat (n - 48)) else None.

(** The longest prefix of octal digits, most significant first. *)
Fixpoint octPrefix (cs : list ascii) : list Z :=
  match cs with
  | c :: cs' =>
      match octDigit c with
      | Some d => d :: octPrefix cs'
      | None => []
      end
  | [] => []
  end.

Definition octValue (ds : list Z) : Z :=
  fold_left (fun acc d => 8 * acc + d)%Z ds 0%Z.

(** [parseInt(s, 8)]: leading white space is skipped, one sign is read,
    then the longest run of octal digits; no digit at all gives [NaN]. *)
Definition parseInt8 (s : string) : Num :=
  let cs := trimStart (list_ascii_of_string s) in
  let '(neg, body) :=
    match cs with
    | "-"%char :: r => (true, r)
    | "+"%char :: r => (false, r)
    | _ => (false, cs)
    end in
  match octPrefix body with
  | [] => NaN
  | ds => Int (if neg : bool then - octValue ds else octValue ds)%Z
  end.

Definition octChar (d : Z) : ascii := ascii_of_nat (48 + Z.to_nat d).

Fixpoint octString (fuel : nat) (n : Z) (acc : list ascii) : list ascii :=
  match fuel with
  | O => acc
  | S fuel' =>
      let acc' := octChar (n mod 8) :: acc in
      if (n <? 8)%Z then acc' else octString fuel' (n / 8) acc'
  end.

(** [x.toString(8)] *)
Definition toString8 (x : Num) : string :=
  match x with
  | NaN => "NaN"
  | Int z =>
      let digits :=
        string_of_list_ascii
          (octString (S (Z.to_nat (Z.log2 (Z.abs z)))) (Z.abs z) []) in
      if (z <? 0)%Z then "-" +:+ digits else digits
  end.

(** *** Property order of an ordinary object

    [for (const P in o)] visits the own string keys of [o] as
    OrdinaryOwnPropertyKeys lists them: first the keys that are array
    indices, in ascending numeric order, then every other key in the order
    in which it was first added. *)

Definition isDigit (c : ascii) : bool :=
  let n := nat_of_ascii c in (48 <=? n)%nat && (n <=? 57)%nat.

Definition decValue (cs : list ascii) : Z :=
  fold_left (fun acc c => 10 * acc + Z.of_nat (nat_of_ascii c - 48))%Z cs 0%Z.

(** The canonical numeric strings of the integers 0 .. 2^32 - 2. *)
Definition arrayIndex (k : string) : option Z :=
  match list_ascii_of_string k with
  | [] => None
  | "0"%char :: [] => Some 0%Z
  | "0"%char :: _ => None
  | cs =>
      if forallb isDigit cs && (length cs <=? 10)%nat
         && (decValue cs <=? 4294967294)%Z
      then Some (decValue cs) else None
  end.

(** An object literal (or the parsed JSON text of one): the properties in
    the order they are written; a key written twice keeps its first
    position and its last value. *)
Definition Object (V : Type) : Type := list (string * V).

Definition get {V} (o : Object V) (k : string) : option V :=
  snd <$> last (filter (fun kv => bool_decide (kv.1 = k)) o).

Fixpoint dedup {K} `{EqDecision K} (seen : list K) (ks : list K) : list K :=
  match ks with
  | [] => []
  | k :: ks' =>
      if bool_decide (k ∈ seen) then dedup seen ks'
      else k :: dedup (k :: seen) ks'
  end.

Fixpoint insertIndex (k : string * Z) (l : list (string * Z)) : list (string * Z) :=
  match l with
  | [] => [k]
  | h :: t => if (k.2 <=? h.2)%Z then k :: l else h :: insertIndex k t
  end.

Definition sortIndices (l : list (string * Z)) : list (string * Z) :=
  foldr insertIndex [] l.

Definition indexKeys (ks : list string) : list (string * Z) :=
  omap (fun k => (fun i => (k, i)) <$> arrayIndex k) ks.

Definition nameKeys (ks : list string) : list string :=
  filter (fun k => arrayIndex k = None) ks.

(** The keys [for ... in] visits, in order. *)
Definition forInKeys {V} (o : Object V) : list string :=
  let ks := dedup [] (map fst o) in
  map fst (sortIndices (indexKeys ks)) ++ nameKeys ks.

End JS.

(** ** Helpers of the extension ([src/helpers.ts]) that the client calls *)

Module Helpers.

(** Modelled from the spec: [deploy_helpers.normalizeString] is not among
    the sources; the spec calls its result "case/format-normalized": the
    text in lower case without surrounding white space. *)
Definition normalizeString (s : string) : string :=
  JS.trim (JS.toLowerCase s).

(** Modelled from the spec: [deploy_helpers.asArray] is not among the
    sources; it turns the optional "accepted digest list" (one string or a
    list of strings) into a list, an absent value into the empty list. *)
Definition asArray {A} (v : option (A + list A)) : list A :=
  match v with
  | None => []
  | Some (inl x) => [x]
  | Some (inr l) => l
  end.

Definition isSep (c : ascii) : bool :=
  bool_decide (c = "/"%char) || bool_decide (c = "\"%char).

(** The non-empty components of a path, [acc] holding the characters of
    the current component in reverse. *)
Fixpoint components (acc : list ascii) (cs : list ascii) : list (list ascii) :=
  match cs with
  | [] => match acc with [] => [] | _ => [rev acc] end
  | c :: cs' =>
      if isSep c
      then match acc with
           | [] => components [] cs'
           | _ => rev acc :: components [] cs'
           end
      else components (c :: acc) cs'
  end.

Fixpoint joinPath (ss : list (list ascii)) : list ascii :=
  match ss with
  | [] => []
  | [s] => s
  | s :: ss' => s ++ "/"%char :: joinPath ss'
  end.

(** Modelled from the spec: [deploy_helpers.normalizePath] is not among
    the sources. The spec asks of ['/' + normalizePath(p)] that it accepts
    either separator, begins with a single ['/'] and has redundant
    separators collapsed: the components of the path joined by ['/']. *)
Definition normalizePath (p : string) : string :=
  string_of_list_ascii (joinPath (components [] (list_ascii_of_string p))).

(** Modelled from the spec: [deploy_helpers.createCompletedAction] is not
    among the sources. "An operation completes (success or failure)
    exactly once": the first call settles the promise, rejecting when an
    error is passed and resolving otherwise; later calls do nothing. *)
Definition createCompletedAction {E A} (cell : option (E + A))
    (err : option E) (result : A) : option (E + A) :=
  match cell with
  | Some _ => cell
  | None =>
      match err with
      | Some e => Some (inl e)
      | None => Some (inr result)
      end
  end.

End Helpers.

(** ** Reference instances of the collaborators

    The client is parametrised by the pattern matcher (minimatch, behind
    [deploy_helpers.doesMatch]) and by [Path.dirname]. The two functions
    below are instances used to run the model on concrete inputs. *)

Module Glob.

(** One path segment against one pattern segment: [*] is any run of
    characters, [?] any one character, other characters match without
    regard to case. *)
Fixpoint segMatch (p s : list ascii) {struct p} : bool :=
  match p with
  | [] => match s with [] => true | _ => false end
  | "*"%char :: p' =>
      (fix star (s : list ascii) : bool :=
         segMatch p' s ||
         match s with [] => false | _ :: s' => star s' end) s
  | "?"%char :: p' =>
      match s with [] => false | _ :: s' => segMatch p' s' end
  | c :: p' =>
      match s with
      | [] => false
      | d :: s' =>
          bool_decide (JS.lowerChar c = JS.lowerChar d) && segMatch p' s'
      end
  end.

Fixpoint split (acc : list ascii) (cs : list ascii) : list (list ascii) :=
  match cs with
  | [] => [rev acc]
  | c :: cs' =>
      if bool_decide (c = "/"%char) then rev acc :: split [] cs'
      else split (c :: acc) cs'
  end.

(** Segments against pattern segments: [**] stands for any number of
    segments. *)
Fixpoint segsMatch (ps ss : list (list ascii)) {struct ps} : bool :=
  match ps with
  | [] => match ss with [] => true | _ => false end
  | p :: ps' =>
      if bool_decide (p = ["*"%char; "*"%char])
      then (fix glob (ss : list (list ascii)) : bool :=
              segsMatch ps' ss ||
              match ss with [] => false | _ :: ss' => glob ss' end) ss
      else match ss with
           | [] => false
           | s :: ss' => segMatch p s && segsMatch ps' ss'
           end
  end.

(** [minimatch(path, pattern, { dot: true, nocase: true })] on patterns
    made of literal characters, [?], [*] and [**]. *)
Definition doesMatch (path pattern : string) : bool :=
  segsMatch (split [] (list_ascii_of_string pattern))
            (split [] (list_ascii_of_string path)).

End Glob.

Module Path.

Fixpoint dropTrailingSlashes (rcs : list ascii) : list ascii :=
  match rcs with
  | "/"%char :: r => dropTrailingSlashes r
  | _ => rcs
  end.

Fixpoint dropToSlash (rcs : list ascii) : option (list ascii) :=
  match rcs with
  | [] => None
  | "/"%char :: r => Some r
  | _ :: r => dropToSlash r
  end.

(** [Path.posix.dirname]: the path up to the separator before its last
    component; ["."] for a relative name, ["/"] for a name in the root. *)
Definition dirname (p : string) : string :=
  match list_ascii_of_string p with
  | [] => "."
  | c :: cs =>
      match dropToSlash (dropTrailingSlashes (rev cs)) with
      | None => if bool_decide (c = "/"%char) then "/" else "."
      | Some [] => if bool_decide (c = "/"%char) then "//"
                   else string_of_list_ascii [c]
      | Some r => string_of_list_ascii (c :: rev r)
      end
  end.

End Path.

(** ** The client *)

Module Sftp.

(** *** Data *)

(** A thrown or rejected value; every error is truthy. *)
Inductive Err : Type := Error (message : string).

Definition Buffer : Type := list Byte.byte.

(** [SFTPFileMode = number | string] *)
Inductive SFTPFileMode : Type :=
| ModeNumber (n : Z)
| ModeString (s : string).

(** [SFTPFileModeSettings = SFTPFileMode | SFTPFileModePatterns] *)
Inductive SFTPFileModeSettings : Type :=
| SingleMode (m : SFTPFileMode)
| ModePatterns (o : JS.Object SFTPFileMode).

(** The fields of [SFTPConnectionOptions] that the modelled code reads;
    an absent field is [None]. *)
Record SFTPConnectionOptions : Type := {
  hashAlgorithm : option string;
  hashes : option (string + list string);
  host : option string;
  modes : option SFTPFileModeSettings;
  password : option string;
  user : option string;
}.

(** What [openConnection] hands to the transport's [connect]. *)
Record ConnectConfig : Type := {
  cfg_host : string;
  cfg_hostHash : string;
  cfg_hostVerifier : string -> bool;
  cfg_username : option string;
  cfg_password : option string;
}.

(** An entry of a remote listing as the transport reports it. *)
Record RawEntry : Type := {
  raw_name : string;
  raw_type : string;
  raw_size : Z;
  raw_modifyTime : Z;
}.

(** What a remote read stream and the write stream piped to the temporary
    file do, in the order in which the events are delivered. [StreamEnd]
    carries the outcome of reading the temporary file back. *)
Inductive StreamEvent : Type :=
| StreamData (chunk : Buffer)
| StreamEnd (readError : option Err)
| StreamError (e : Err)
| PipeError (e : Err).

(** The transport (ssh2-sftp-client) against a remote side of type [R].
    Every call settles; [None] is success for the calls without result. *)
Record Transport (R : Type) : Type := {
  sftp_hostKey : string -> R -> string;
  sftp_connect : ConnectConfig -> R -> option Err * R;
  sftp_list : string -> R -> (Err + list RawEntry) * R;
  sftp_mkdir : string -> bool -> R -> option Err * R;
  sftp_put : Buffer -> string -> R -> option Err * R;
  sftp_chmod : string -> JS.Num -> R -> option Err * R;
  sftp_get : string -> R -> (Err + list StreamEvent) * R;
  sftp_delete : string -> R -> option Err * R;
  sftp_end : R -> option Err * R;
}.
Arguments sftp_hostKey {R}.
Arguments sftp_connect {R}.
Arguments sftp_list {R}.
Arguments sftp_mkdir {R}.
Arguments sftp_put {R}.
Arguments sftp_chmod {R}.
Arguments sftp_get {R}.
Arguments sftp_delete {R}.
Arguments sftp_end {R}.

Inductive Level : Type := trace | debug | info | notice.

Inductive Message : Type :=
| OfError (e : Err)
| Text (s : string).

(** What an operation does to the outside, in order: the calls on the
    transport of client [h] with their outcome, and the log lines. *)
Inductive Event : Type :=
| Connect (h : nat) (cfg : ConnectConfig) (err : option Err)
| List (h : nat) (path : string) (ok : bool)
| Mkdir (h : nat) (path : string) (recursive : bool) (err : option Err)
| Put (h : nat) (data : Buffer) (path : string) (err : option Err)
| Chmod (h : nat) (path : string) (mode : JS.Num) (err : option Err)
| Get (h : nat) (path : string) (ok : bool)
| Delete (h : nat) (path : string) (err : option Err)
| End_ (h : nat) (err : option Err)
| Log (l : Level) (m : Message) (tag : string).

(** [deploy_files.FileSystemType], the two members the client uses. *)
Inductive FileSystemType : Type := Directory | File.

(** An [SFTPClient] object: its options and the identity of its
    transport; the [_checkedRemoteDirs] of each client live in the
    [World]. *)
Record SFTPClient : Type := {
  options : SFTPConnectionOptions;
  client : nat;
}.

(** The outcome of awaiting a promise. *)
Inductive Res (A : Type) : Type :=
| Ok (a : A)
| Throw (e : Err)
| Pending.
Arguments Ok {A}.
Arguments Throw {A}.
Arguments Pending {A}.

(** *** The download of one stream through a temporary file *)

(** The state of one [downloadFile] call: the promise it returns
    ([outer], settled by [COMPLETED]), the promise of the staging body
    passed to [invokeForTempFile] ([inner], settled by [COMP]), the
    temporary file on disk, and the [once] listeners still registered. *)
Record Download : Type := {
  outer : option (Err + Buffer);
  inner : option (Err + Buffer);
  tmpFile : option Buffer;
  onStreamError : bool;
  onPipeError : bool;
  onEnd : bool;
}.

(** After [FS.createWriteStream(tmpFile)] and the three [once] calls. *)
Definition startDownload : Download :=
  {| outer := None; inner := None; tmpFile := Some [];
     onStreamError := true; onPipeError := true; onEnd := true |}.

(** [COMPLETED(err, data)] *)
Definition COMPLETED (d : Download) (err : option Err) (data : Buffer) : Download :=
  {| outer := Helpers.createCompletedAction (outer d) err data;
     inner := inner d; tmpFile := tmpFile d;
     onStreamError := onStreamError d; onPipeError := onPipeError d;
     onEnd := onEnd d |}.

(** [COMP(err, data)]: the first call settles the staging body; the
    temporary-file provider then deletes the file and settles in the same
    way, and the awaiting [downloadFile] reaches [COMPLETED(null,
    DOWNLOADED_DATA)] or, through [catch], [COMPLETED(e)]. *)
Definition COMP (d : Download) (err : option Err) (data : Buffer) : Download :=
  match inner d with
  | Some _ => d
  | None =>
      COMPLETED
        {| outer := outer d;
           inner := Helpers.createCompletedAction (inner d) err data;
           tmpFile := None;
           onStreamError := onStreamError d; onPipeError := onPipeError d;
           onEnd := onEnd d |}
        err data
  end.

Definition onEvent (d : Download) (ev : StreamEvent) : Download :=
  match ev with
  | StreamData chunk =>
      {| outer := outer d; inner := inner d;
         tmpFile := (fun b => b ++ chunk) <$> tmpFile d;
         onStreamError := onStreamError d; onPipeError := onPipeError d;
         onEnd := onEnd d |}
  | StreamError e =>
      if onStreamError d then
        COMPLETED
          {| outer := outer d; inner := inner d; tmpFile := tmpFile d;
             onStreamError := false; onPipeError := onPipeError d;
             onEnd := onEnd d |} (Some e) []
      else d
  | PipeError e =>
      if onPipeError d then
        COMP
          {| outer := outer d; inner := inner d; tmpFile := tmpFile d;
             onStreamError := onStreamError d; onPipeError := false;
             onEnd := onEnd d |} (Some e) []
      else d
  | StreamEnd readError =>
      if onEnd d then
        let d' :=
          {| outer := outer d; inner := inner d; tmpFile := tmpFile d;
             onStreamError := onStreamError d; onPipeError := onPipeError d;
             onEnd := false |} in
        match readError, tmpFile d with
        | Some e, _ => COMP d' (Some e) []
        | None, Some data => COMP d' None data
        | None, None => COMP d' (Some (Error "ENOENT")) []
        end
      else d
  end.

(** All the events of a stream. *)
Definition deliver (evs : list StreamEvent) (d : Download) : Download :=
  fold_left onEvent evs d.

(** The events of a stream up to the one that settles [downloadFile]. *)
Fixpoint deliverUntilSettled (evs : list StreamEvent) (d : Download) : Download :=
  match outer d, evs with
  | None, ev :: evs' => deliverUntilSettled evs' (onEvent d ev)
  | _, _ => d
  end.

(** *** Operations *)

Section Client.

(** The remote side and the transport that reaches it. *)
Context {R : Type} (T : Transport R).
(** [deploy_helpers.doesMatch(path, pattern, { dot: true, nocase: true })] *)
Variable doesMatch : string -> string -> bool.
(** [Path.dirname] *)
Variable dirname : string -> string.

(** Everything the operations read and change: the remote side, the
    clients created so far with their [_checkedRemoteDirs], and the
    temporary files on the local disk. *)
Record World : Type := {
  remote : R;
  nextClient : nat;
  checkedRemoteDirs : gmap nat (gmap string bool);
  nextTmp : nat;
  tmpFiles : gmap nat Buffer;
}.

Definition setRemote (r : R) (w : World) : World :=
  {| remote := r; nextClient := nextClient w;
     checkedRemoteDirs := checkedRemoteDirs w;
     nextTmp := nextTmp w; tmpFiles := tmpFiles w |}.

(** An asynchronous computation: the awaited outcome, the world after
    it, and the events it caused. *)
Definition M (A : Type) : Type := World -> Res A * World * list Event.

Definition ret {A} (a : A) : M A := fun w => (Ok a, w, []).

Definition bind {A B} (m : M A) (f : A -> M B) : M B := fun w =>
  match m w with
  | (Ok a, w1, evs1) =>
      let '(r, w2, evs2) := f a w1 in (r, w2, evs1 ++ evs2)
  | (Throw e, w1, evs1) => (Throw e, w1, evs1)
  | (Pending, w1, evs1) => (Pending, w1, evs1)
  end.

Definition throw {A} (e : Err) : M A := fun w => (Throw e, w, []).

(** [try { m } catch (e) { h(e) }] *)
Definition tryCatch {A} (m : M A) (h : Err -> M A) : M A := fun w =>
  match m w with
  | (Throw e, w1, evs1) =>
      let '(r, w2, evs2) := h e w1 in (r, w2, evs1 ++ evs2)
  | other => other
  end.

(** [try { m } finally { fin }]: [fin] runs once [m] has settled and its
    own failure replaces the outcome of [m]. *)
Definition tryFinally {A} (m : M A) (fin : M unit) : M A := fun w =>
  match m w with
  | (Pending, w1, evs1) => (Pending, w1, evs1)
  | (r, w1, evs1) =>
      match fin w1 with
      | (Ok _, w2, evs2) => (r, w2, evs1 ++ evs2)
      | (Throw e, w2, evs2) => (Throw e, w2, evs1 ++ evs2)
      | (Pending, w2, evs2) => (Pending, w2, evs1 ++ evs2)
      end
  end.

Definition emit (ev : Event) : M unit := fun w => (Ok tt, w, [ev]).

(** [deploy_log.CONSOLE.<level>(msg, tag)] *)
Definition log (l : Level) (m : Message) (tag : string) : M unit :=
  emit (Log l m tag).

Notation "x <- c1 ;; c2" := (bind c1 (fun x => c2))
  (at level 100, c1 at next level, right associativity).
Notation "c1 ;;; c2" := (bind c1 (fun _ => c2))
  (at level 100, right associativity).

(** A call on the transport that resolves to nothing or rejects. *)
Definition call (f : R -> option Err * R) (ev : option Err -> Event) : M unit :=
  fun w =>
    let '(err, r) := f (remote w) in
    (match err with Some e => Throw e | None => Ok tt end,
     setRemote r w, [ev err]).

(** [toSFTPPath] *)
Definition toSFTPPath (path : string) : string :=
  "/" +:+ Helpers.normalizePath path.

(** [this._checkedRemoteDirs[dir]] *)
Definition checked (c : SFTPClient) (dir : string) (w : World) : option bool :=
  checkedRemoteDirs w !! client c ≫= (.!! dir).

(** [this._checkedRemoteDirs[dir] = true] *)
Definition markChecked (c : SFTPClient) (dir : string) : M unit := fun w =>
  (Ok tt,
   {| remote := remote w; nextClient := nextClient w;
      checkedRemoteDirs :=
        <[client c := <[dir := true]> (default ∅ (checkedRemoteDirs w !! client c))]>
          (checkedRemoteDirs w);
      nextTmp := nextTmp w; tmpFiles := tmpFiles w |},
   []).

(** [createClient]: a new client with its own transport and an empty
    [_checkedRemoteDirs]. The responder for keyboard-interactive prompts
    that the constructor registers belongs to the handshake of the
    transport. *)
Definition createClient (opts : SFTPConnectionOptions) : M SFTPClient := fun w =>
  (Ok {| options := opts; client := nextClient w |},
   {| remote := remote w; nextClient := S (nextClient w);
      checkedRemoteDirs := <[nextClient w := ∅]> (checkedRemoteDirs w);
      nextTmp := nextTmp w; tmpFiles := tmpFiles w |},
   []).

(** [deploy_helpers.toStringSafe] on an optional string: the string, or
    the empty string. *)
Definition toStringSafe (s : option string) : string := default "" s.

(** The [hashes] of [openConnection]: the configured digests,
    normalized, without the empty ones. *)
Definition supportedHashes (opts : SFTPConnectionOptions) : list string :=
  List.filter (fun x => negb (String.eqb "" x))
    (map Helpers.normalizeString (Helpers.asArray (hashes opts))).

(** [hashes.indexOf(x)] *)
Fixpoint indexOf (x : string) (l : list string) : Z :=
  match l with
  | [] => -1
  | y :: l' =>
      if String.eqb y x then 0
      else let i := indexOf x l' in if (i <? 0)%Z then -1 else (i + 1)%Z
  end.

(** The [hostVerifier] that [openConnection] builds. *)
Definition hostVerifier (opts : SFTPConnectionOptions) (keyHash : string) : bool :=
  let hashes := supportedHashes opts in
  if (length hashes <? 1)%nat then true
  else
    let keyHash := Helpers.normalizeString keyHash in
    (-1 <? indexOf keyHash hashes)%Z.

Definition connectConfig (opts : SFTPConnectionOptions) : ConnectConfig :=
  let host := Helpers.normalizeString (toStringSafe (host opts)) in
  let hashAlgo := Helpers.normalizeString (toStringSafe (hashAlgorithm opts)) in
  {| cfg_host := if String.eqb "" host then "127.0.0.1" else host;
     cfg_hostHash := if String.eqb "" hashAlgo then "md5" else hashAlgo;
     cfg_hostVerifier := hostVerifier opts;
     cfg_username :=
       if String.eqb "" (toStringSafe (user opts)) then None
       else Some (toStringSafe (user opts));
     cfg_password :=
       if String.eqb "" (toStringSafe (password opts)) then None
       else Some (toStringSafe (password opts)) |}.

(** [CLIENT.client.connect(cfg)]: during the handshake the transport
    computes the digest of the host key with [cfg.hostHash] and asks
    [cfg.hostVerifier]; a refused key fails the connection. *)
Definition connect (c : SFTPClient) (cfg : ConnectConfig) : M unit := fun w =>
  if cfg_hostVerifier cfg (sftp_hostKey T (cfg_hostHash cfg) (remote w))
  then call (sftp_connect T cfg) (Connect (client c) cfg) w
  else
    let e := Error "Host denied (verification failed)" in
    (Throw e, w, [Connect (client c) cfg (Some e)]).

(** [openConnection]. The agent, the port, the time-out and the private
    key are handed to the transport unchanged and are part of what
    [sftp_connect] answers. *)
Definition openConnection (opts : SFTPConnectionOptions) : M SFTPClient :=
  CLIENT <- createClient opts ;;
  connect CLIENT (connectConfig opts) ;;;
  ret CLIENT.

(** [CLIENT.client.end()] *)
Definition end_ (c : SFTPClient) : M unit :=
  call (sftp_end T) (End_ (client c)).

(** [deleteFile] *)
Definition deleteFile (c : SFTPClient) (path : string) : M bool :=
  let path := toSFTPPath path in
  tryCatch
    (call (sftp_delete T path) (Delete (client c) path) ;;; ret true)
    (fun _ => ret false).

(** [this.client.list(path)] *)
Definition list_ (c : SFTPClient) (path : string) : M (list RawEntry) := fun w =>
  let '(res, r) := sftp_list T path (remote w) in
  match res with
  | inl e => (Throw e, setRemote r w, [List (client c) path false])
  | inr l => (Ok l, setRemote r w, [List (client c) path true])
  end.

(** [this.client['sftp'].chmod(path, mode, cb)]: the error passed to
    the callback, if any. *)
Definition chmod (c : SFTPClient) (path : string) (mode : JS.Num) : M (option Err) :=
  fun w =>
    let '(err, r) := sftp_chmod T path mode (remote w) in
    (Ok err, setRemote r w, [Chmod (client c) path mode err]).

(** The promise whose executor ends with the completion cell [cell]. *)
Definition promise {A} (executor : M (option (Err + A))) : M A := fun w =>
  match executor w with
  | (Ok (Some (inr a)), w1, evs) => (Ok a, w1, evs)
  | (Ok (Some (inl e)), w1, evs) => (Throw e, w1, evs)
  | (Ok None, w1, evs) => (Pending, w1, evs)
  | (Throw e, w1, evs) => (Pending, w1, evs)
  | (Pending, w1, evs) => (Pending, w1, evs)
  end.

(** The file modes of [uploadFile]: [false] without [modes], the
    patterns, or the single value under the pattern ['**/*']. *)
Definition fileModesOf (opts : SFTPConnectionOptions)
  : option (JS.Object SFTPFileMode) :=
  match modes opts with
  | None => None
  | Some (ModePatterns o) => Some o
  | Some (SingleMode m) => Some [("**/*", m)]
  end.

(** [deploy_helpers.toStringSafe(fileModes[P])] *)
Definition modeText (m : option SFTPFileMode) : string :=
  match m with
  | None => ""
  | Some (ModeString s) => s
  | Some (ModeNumber n) => pretty n
  end.

Definition rooted (P : string) : string :=
  if JS.startsWith "/" P then P else "/" +:+ P.

(** The loop over the patterns: the matched pattern and the mode to
    set, or nothing ([matchedPattern] and [modeToSet] still [false]). *)
Fixpoint matchMode (fileModes : JS.Object SFTPFileMode) (path : string)
    (keys : list string) : option (string * JS.Num) :=
  match keys with
  | [] => None
  | P :: keys' =>
      if doesMatch path (rooted P)
      then Some (P, JS.parseInt8 (JS.trim (modeText (JS.get fileModes P))))
      else matchMode fileModes path keys'
  end.

(** [modeToSet] for the converted [path]. *)
Definition modeToSet (opts : SFTPConnectionOptions) (path : string)
  : option JS.Num :=
  fileModes ← fileModesOf opts;
  snd <$> matchMode fileModes path (JS.forInKeys fileModes).

(** The part of [uploadFile] that checks the remote directory. *)
Definition checkRemoteDir (c : SFTPClient) (REMOTE_DIR : string) : M unit := fun w =>
  match checked c REMOTE_DIR w with
  | Some true => ret tt w
  | _ =>
      (tryCatch
         (list_ c REMOTE_DIR ;;; ret tt)
         (fun _ => call (sftp_mkdir T REMOTE_DIR true)
                        (Mkdir (client c) REMOTE_DIR true)) ;;;
       markChecked c REMOTE_DIR) w
  end.

(** The part of [uploadFile] that finds the mode and logs the match. *)
Definition findMode (c : SFTPClient) (path : string) : M (option JS.Num) :=
  match fileModesOf (options c) with
  | None => ret None
  | Some fileModes =>
      match matchMode fileModes path (JS.forInKeys fileModes) with
      | None =>
          log notice
            (Text ("'" +:+ path +:+ "' does NOT match with a mode pattern"))
            "clients.sftp.uploadFile(3)" ;;;
          ret None
      | Some (matchedPattern, mode) =>
          log notice
            (Text ("'" +:+ path +:+ "' matches with mode pattern '"
                   +:+ matchedPattern +:+ "'"))
            "clients.sftp.uploadFile(3)" ;;;
          ret (Some mode)
      end
  end.

(** [uploadFile] *)
Definition uploadFile (c : SFTPClient) (path : string) (data : Buffer) : M unit :=
  promise
    (tryCatch
       (let REMOTE_DIR := toSFTPPath (dirname path) in
        let path := toSFTPPath path in
        checkRemoteDir c REMOTE_DIR ;;;
        modeToSet <- findMode c path ;;
        call (sftp_put T data path) (Put (client c) data path) ;;;
        match modeToSet with
        | Some mode =>
            log info
              (Text ("Setting mode for '" +:+ path +:+ "' to "
                     +:+ JS.toString8 mode +:+ " ..."))
              "clients.sftp.uploadFile(1)" ;;;
            err <- chmod c path mode ;;
            match err with
            | Some e => log trace (OfError e) "clients.sftp.uploadFile(2)"
            | None => ret tt
            end ;;;
            ret (Helpers.createCompletedAction None err tt)
        | None => ret (Helpers.createCompletedAction None None tt)
        end)
       (fun e => ret (Helpers.createCompletedAction None (Some e) tt))).

(** [downloadFile]: the stream of the remote file is staged through a
    new temporary file; the world is the one in which the returned
    promise settles. *)
Definition downloadFile (c : SFTPClient) (path : string) : M Buffer := fun w =>
  let path := toSFTPPath path in
  let '(res, r) := sftp_get T path (remote w) in
  match res with
  | inl e => (Throw e, setRemote r w, [Get (client c) path false])
  | inr stream =>
      let d := deliverUntilSettled stream startDownload in
      (match outer d with
       | Some (inr data) => Ok data
       | Some (inl e) => Throw e
       | None => Pending
       end,
       {| remote := r; nextClient := nextClient w;
          checkedRemoteDirs := checkedRemoteDirs w;
          nextTmp := S (nextTmp w);
          tmpFiles :=
            match tmpFile d with
            | Some content => <[nextTmp w := content]> (tmpFiles w)
            | None => delete (nextTmp w) (tmpFiles w)
            end |},
       [Get (client c) path true])
  end.

(** [deploy_files.FileSystemInfo] with the optional members of
    [FileInfo]; [fs_time] is the instant [Moment(FI.modifyTime)]. *)
Record FileSystemInfo : Type := {
  fs_download : option (M Buffer);
  fs_name : string;
  fs_path : string;
  fs_size : Z;
  fs_time : Z;
  fs_type : option FileSystemType;
}.

(** The [download] of a listed file: [path] is the converted path of
    the listing. *)
Definition download (ME : SFTPClient) (path : string) (FI : RawEntry) : M Buffer :=
  CLIENT <- openConnection (options ME) ;;
  tryFinally
    (downloadFile CLIENT
       (Helpers.normalizePath path +:+ "/" +:+ Helpers.normalizePath (raw_name FI)))
    (tryCatch (end_ CLIENT)
       (fun e => log trace (OfError e)
                   "clients.sftp.SFTPClient.listDirectory().FI.download()")).

(** The body of the loop of [listDirectory]. *)
Definition toInfo (ME : SFTPClient) (path : string) (FI : RawEntry) : FileSystemInfo :=
  if String.eqb "d" (raw_type FI) then
    {| fs_download := None;
       fs_name := raw_name FI; fs_path := Helpers.normalizePath path;
       fs_size := raw_size FI; fs_time := raw_modifyTime FI;
       fs_type := Some Directory |}
  else if String.eqb "-" (raw_type FI) then
    {| fs_download := Some (download ME path FI);
       fs_name := raw_name FI; fs_path := Helpers.normalizePath path;
       fs_size := raw_size FI; fs_time := raw_modifyTime FI;
       fs_type := Some File |}
  else
    {| fs_download := None;
       fs_name := raw_name FI; fs_path := Helpers.normalizePath path;
       fs_size := raw_size FI; fs_time := raw_modifyTime FI;
       fs_type := None |}.

(** [listDirectory] *)
Definition listDirectory (ME : SFTPClient) (path : string) : M (list FileSystemInfo) :=
  let path := toSFTPPath path in
  LIST <- list_ ME path ;;
  ret (fold_left (fun RESULT FI => RESULT ++ [toInfo ME path FI]) LIST []).

(** The operations a caller runs on a session, one after the other,
    whatever their outcome. *)
Inductive Op : Type :=
| Upload (path : string) (data : Buffer)
| ListDir (path : string)
| DownloadFile (path : string)
| DeleteFile (path : string).

Definition runOp (c : SFTPClient) (op : Op) (w : World) : World * list Event :=
  match op with
  | Upload path data => let '(_, w', evs) := uploadFile c path data w in (w', evs)
  | ListDir path => let '(_, w', evs) := listDirectory c path w in (w', evs)
  | DownloadFile path => let '(_, w', evs) := downloadFile c path w in (w', evs)
  | DeleteFile path => let '(_, w', evs) := deleteFile c path w in (w', evs)
  end.

Fixpoint runOps (c : SFTPClient) (ops : list Op) (w : World) : World * list Event :=
  match ops with
  | [] => (w, [])
  | op :: ops' =>
      let '(w1, evs1) := runOp c op w in
      let '(w2, evs2) := runOps c ops' w1 in
      (w2, evs1 ++ evs2)
  end.

End Client.

End Sftp.

(** ** A scripted transport

    A remote side without state whose answers are fixed in advance; it is
    used to run the client on concrete inputs. *)

Module Scripted.
Import Sftp.

Record Script : Type := {
  hostKey : string;
  connectError : option Err;
  listing : Err + list RawEntry;
  mkdirError : option Err;
  putError : option Err;
  chmodError : option Err;
  stream : Err + list StreamEvent;
  deleteError : option Err;
  endError : option Err;
}.

Definition transport (s : Script) : Transport unit :=
  {| sftp_hostKey := fun _ _ => hostKey s;
     sftp_connect := fun _ r => (connectError s, r);
     sftp_list := fun _ r => (listing s, r);
     sftp_mkdir := fun _ _ r => (mkdirError s, r);
     sftp_put := fun _ _ r => (putError s, r);
     sftp_chmod := fun _ _ r => (chmodError s, r);
     sftp_get := fun _ r => (stream s, r);
     sftp_delete := fun _ r => (deleteError s, r);
     sftp_end := fun r => (endError s, r) |}.

(** Every call succeeds; listings and files are empty. *)
Definition allFine : Script :=
  {| hostKey := "0a:1b"; connectError := None; listing := inr [];
     mkdirError := None; putError := None; chmodError := None;
     stream := inr [StreamEnd None]; deleteError := None; endError := None |}.

Definition noOptions : SFTPConnectionOptions :=
  {| hashAlgorithm := None; hashes := None; host := None; modes := None;
     password := None; user := None |}.

Definition withModes (m : SFTPFileModeSettings) : SFTPConnectionOptions :=
  {| hashAlgorithm := None; hashes := None; host := None; modes := Some m;
     password := None; user := None |}.

Definition withHashes (hs : list string) : SFTPConnectionOptions :=
  {| hashAlgorithm := None; hashes := Some (inr hs); host := None;
     modes := None; password := None; user := None |}.

(** A world with one connected client, number 0, that checked nothing. *)
Definition world0 : World (R := unit) :=
  {| remote := tt; nextClient := 1; checkedRemoteDirs := {[ 0%nat := ∅ ]};
     nextTmp := 0; tmpFiles := ∅ |}.

Definition client0 (opts : SFTPConnectionOptions) : SFTPClient :=
  {| options := opts; client := 0 |}.

(** The write succeeds and the [chmod] after it is refused. *)
Definition chmodDenied : Script :=
  {| hostKey := "0a:1b"; connectError := None; listing := inr [];
     mkdirError := None; putError := None;
     chmodError := Some (Error "EPERM");
     stream := inr [StreamEnd None]; deleteError := None; endError := None |}.

(** The remote directory does not exist yet: listing fails, creating
    works. *)
Definition missingDir : Script :=
  {| hostKey := "0a:1b"; connectError := None;
     listing := inl (Error "No such file");
     mkdirError := None; putError := None; chmodError := None;
     stream := inr [StreamEnd None]; deleteError := None; endError := None |}.

(** The world before any client exists. *)
Definition noClient : World (R := unit) :=
  {| remote := tt; nextClient := 0; checkedRemoteDirs := ∅;
     nextTmp := 0; tmpFiles := ∅ |}.

(** The remote file arrives as the events [evs]. *)
Definition withStream (evs : list StreamEvent) : Script :=
  {| hostKey := "0a:1b"; connectError := None; listing := inr [];
     mkdirError := None; putError := None; chmodError := None;
     stream := inr evs; deleteError := None; endError := None |}.

(** The stream of the remote file breaks after one byte, and closing the
    connection fails as well. *)
Definition brokenStreamAndClose : Script :=
  {| hostKey := "0a:1b"; connectError := None; listing := inr [];
     mkdirError := None; putError := None; chmodError := None;
     stream := inr [StreamData [Byte.x01]; StreamError (Error "boom")];
     deleteError := None; endError := Some (Error "closed") |}.

(** A listing with a directory, a regular file and a symbolic link. *)
Definition threeEntries : Script :=
  {| hostKey := "0a:1b"; connectError := None;
     listing := inr [ {| raw_name := "sub"; raw_type := "d"; raw_size := 4096;
                         raw_modifyTime := 1 |};
                      {| raw_name := "a.txt"; raw_type := "-"; raw_size := 3;
                         raw_modifyTime := 2 |};
                      {| raw_name := "link"; raw_type := "l"; raw_size := 5;
                         raw_modifyTime := 3 |} ];
     mkdirError := None; putError := None; chmodError := None;
     stream := inr [StreamEnd None]; deleteError := None; endError := None |}.

(** The write of the file is refused. *)
Definition putDenied : Script :=
  {| hostKey := "0a:1b"; connectError := None; listing := inr [];
     mkdirError := None; putError := Some (Error "EACCES"); chmodError := None;
     stream := inr [StreamEnd None]; deleteError := None; endError := None |}.

(** The remote directory can be neither listed nor created. *)
Definition mkdirDenied : Script :=
  {| hostKey := "0a:1b"; connectError := None;
     listing := inl (Error "No such file");
     mkdirError := Some (Error "EACCES"); putError := None; chmodError := None;
     stream := inr [StreamEnd None]; deleteError := None; endError := None |}.

End Scripted.

(** ** Predicates of the statements *)

Module Props.
Import Sftp.

(** No two neighbouring characters are both separators. *)
Fixpoint noDoubledSep (cs : list ascii) : bool :=
  match cs with
  | c :: (d :: _) as rest =>
      negb (Helpers.isSep c && Helpers.isSep d) && noDoubledSep rest
  | _ => true
  end.

(** The text is ['/'] followed by something that does not begin with a
    separator. *)
Definition startsWithOneSlash (s : string) : bool :=
  match list_ascii_of_string s with
  | "/"%char :: [] => true
  | "/"%char :: d :: _ => negb (Helpers.isSep d)
  | _ => false
  end.

(** A path component: not empty and free of separators. *)
Definition component (s : list ascii) : Prop :=
  s ≠ [] ∧ Forall (fun c => Helpers.isSep c = false) s.

(** The reading of the resolver by declaration order: the first
    property of the pattern map, as written, whose rooted pattern matches
    the path decides, and its value is parsed. *)
Definition modeByDeclaredOrder (doesMatch : string -> string -> bool)
    (o : JS.Object SFTPFileMode) (path : string) : option JS.Num :=
  match List.find (fun kv => doesMatch path (rooted kv.1)) o with
  | Some kv => Some (JS.parseInt8 (JS.trim (modeText (JS.get o kv.1))))
  | None => None
  end.

(** The reading by enumeration order of the keys. *)
Definition modeByKeyOrder (doesMatch : string -> string -> bool)
    (o : JS.Object SFTPFileMode) (path : string) : option JS.Num :=
  match List.find (fun P => doesMatch path (rooted P)) (JS.forInKeys o) with
  | Some P => Some (JS.parseInt8 (JS.trim (modeText (JS.get o P))))
  | None => None
  end.

(** A call that checks or creates a remote directory. *)
Definition dirEvent (ev : Event) : bool :=
  match ev with
  | List _ _ _ | Mkdir _ _ _ _ => true
  | _ => false
  end.

(** Among [evs], client [h] saw [dir] listed or created recursively. *)
Definition confirmed (h : nat) (dir : string) (evs : list Event) : Prop :=
  List h dir true ∈ evs ∨ Mkdir h dir true None ∈ evs.

(** The three shapes of a listed entry. *)
Inductive Shape : Type := DirectoryShape | FileShape | OtherShape.

Definition shapeOf {R} (i : FileSystemInfo (R := R)) : option Shape :=
  match fs_type i, fs_download i with
  | Some Directory, None => Some DirectoryShape
  | Some File, Some _ => Some FileShape
  | None, None => Some OtherShape
  | _, _ => None
  end.

Definition shapeOfType (t : string) : Shape :=
  if String.eqb "d" t then DirectoryShape
  else if String.eqb "-" t then FileShape
  else OtherShape.

(** Kinds of events. *)
Definition isPut (ev : Event) : bool :=
  match ev with Put _ _ _ _ => true | _ => false end.

Definition isChmod (ev : Event) : bool :=
  match ev with Chmod _ _ _ _ => true | _ => false end.

Definition isLog (ev : Event) : bool :=
  match ev with Log _ _ _ => true | _ => false end.

Definition isList (ev : Event) : bool :=
  match ev with List _ _ _ => true | _ => false end.

(** The client on whose transport a call was made. *)
Definition handleOf (ev : Event) : option nat :=
  match ev with
  | Connect h _ _ | List h _ _ | Mkdir h _ _ _ | Put h _ _ _
  | Chmod h _ _ _ | Get h _ _ | Delete h _ _ | End_ h _ => Some h
  | Log _ _ _ => None
  end.

(** What client [h] may do to upload [data] to [p] in the directory [dir]
    with the mode [mode]. *)
Definition uploadStep (h : nat) (dir p : string) (data : Buffer)
    (mode : option JS.Num) (ev : Event) : Prop :=
  match ev with
  | List h' d _ => h' = h ∧ d = dir
  | Mkdir h' d recursive _ => h' = h ∧ d = dir ∧ recursive = true
  | Put h' data' p' _ => h' = h ∧ data' = data ∧ p' = p
  | Chmod h' p' m _ => h' = h ∧ p' = p ∧ mode = Some m
  | Log _ _ _ => True
  | _ => False
  end.

(** Stream events that carry data, and the bytes they carry. *)
Definition isData (ev : StreamEvent) : bool :=
  match ev with StreamData _ => true | _ => false end.

Definition chunkOf (ev : StreamEvent) : Buffer :=
  match ev with StreamData chunk => chunk | _ => [] end.

Definition bytesOf (evs : list StreamEvent) : Buffer :=
  concat (map chunkOf evs).

(** How the two promises and the temporary file of a download hang
    together. *)
Definition staged (d : Download) : Prop :=
  (tmpFile d = None ↔ inner d ≠ None)
  ∧ (inner d ≠ None -> outer d ≠ None)
  ∧ (∀ data, outer d = Some (inr data) -> inner d = Some (inr data)).

End Props.

(** ** Theorems *)

(** *** The path conversion *)

Section PathNormalizer.
Import Helpers Props.

Lemma components_app (s acc rest : list ascii) :
  Forall (fun c => isSep c = false) s ->
  components acc (s ++ rest) = components (rev s ++ acc) rest.
Proof.
  revert acc. induction s as [|c s IH]; intros acc Hs; [done|].
  inversion Hs as [|? ? Hc Hs']; subst. simpl. rewrite Hc.
  rewrite IH by done. by rewrite <- app_assoc.
Qed.

Lemma components_good (cs acc : list ascii) :
  Forall (fun c => isSep c = false) acc ->
  Forall component (components acc cs).
Proof.
  revert acc. induction cs as [|c cs IH]; intros acc Hacc; simpl.
  - destruct acc as [|a acc]; [constructor|].
    constructor; [|constructor]. split.
    + intros H. apply (f_equal (@length ascii)) in H.
      rewrite length_rev in H. simpl in H. lia.
    + apply Forall_rev. exact Hacc.
  - destruct (isSep c) eqn:Hc.
    + destruct acc as [|a acc]; [apply IH; constructor|].
      constructor; [|apply IH; constructor]. split.
      * intros H. apply (f_equal (@length ascii)) in H.
        rewrite length_rev in H. simpl in H. lia.
      * apply Forall_rev. exact Hacc.
    + apply IH. by constructor.
Qed.

Lemma components_join (ss : list (list ascii)) :
  Forall component ss -> components [] (joinPath ss) = ss.
Proof.
  induction ss as [|s ss IH]; intros Hss; [done|].
  inversion Hss as [|? ? [Hne Hs] Hss']; subst.
  destruct ss as [|s' ss].
  - simpl. rewrite <- (app_nil_r s) at 1. rewrite components_app by done.
    simpl. rewrite app_nil_r. destruct (rev s) eqn:Hr.
    + apply (f_equal (@rev ascii)) in Hr. rewrite rev_involutive in Hr. done.
    + rewrite <- Hr. by rewrite rev_involutive.
  - change (joinPath (s :: s' :: ss)) with (s ++ "/"%char :: joinPath (s' :: ss)).
    rewrite components_app by done. rewrite app_nil_r.
    cbn [components]. change (isSep "/") with true. cbv iota.
    rewrite IH by done. destruct (rev s) eqn:Hr.
    + apply (f_equal (@rev ascii)) in Hr. rewrite rev_involutive in Hr. done.
    + rewrite <- Hr. by rewrite rev_involutive.
Qed.

Lemma join_head (ss : list (list ascii)) :
  Forall component ss ->
  match joinPath ss with [] => True | c :: _ => isSep c = false end.
Proof.
  intros Hss. destruct ss as [|s ss]; [done|].
  inversion Hss as [|? ? [Hne Hs] _]; subst.
  destruct s as [|c s]; [done|]. inversion Hs; subst.
  destruct ss; simpl; done.
Qed.

Lemma noDoubledSep_app_sep (s rest : list ascii) :
  Forall (fun c => isSep c = false) s ->
  noDoubledSep rest = true ->
  match rest with [] => True | c :: _ => isSep c = false end ->
  noDoubledSep (s ++ "/"%char :: rest) = true.
Proof.
  intros Hs Hrest Hhead. induction Hs as [|c s Hc Hs IH].
  - destruct rest as [|d rest]; [done|].
    change (noDoubledSep ([] ++ "/"%char :: d :: rest))
      with (negb (isSep "/" && isSep d) && noDoubledSep (d :: rest)).
    rewrite Hhead, andb_false_r. exact Hrest.
  - change ((c :: s) ++ "/"%char :: rest) with (c :: (s ++ "/"%char :: rest)).
    destruct (s ++ "/"%char :: rest) eqn:E; [done|].
    cbn [noDoubledSep]. rewrite Hc. simpl. exact IH.
Qed.

Lemma noDoubledSep_free (s : list ascii) :
  Forall (fun c => isSep c = false) s -> noDoubledSep s = true.
Proof.
  induction 1 as [|c s Hc Hs IH]; [done|].
  destruct s; [done|]. cbn [noDoubledSep]. rewrite Hc. simpl. exact IH.
Qed.

Lemma noDoubledSep_join (ss : list (list ascii)) :
  Forall component ss -> noDoubledSep (joinPath ss) = true.
Proof.
  induction ss as [|s ss IH]; intros Hss; [done|].
  inversion Hss as [|? ? [Hne Hs] Hss']; subst.
  destruct ss as [|s' ss]; [by apply noDoubledSep_free|].
  change (joinPath (s :: s' :: ss)) with (s ++ "/"%char :: joinPath (s' :: ss)).
  apply noDoubledSep_app_sep; [done|by apply IH|by apply join_head].
Qed.

Lemma list_of_toSFTPPath (x : string) :
  list_ascii_of_string (Sftp.toSFTPPath x)
  = "/"%char :: joinPath (components [] (list_ascii_of_string x)).
Proof.
  unfold Sftp.toSFTPPath, normalizePath.
  change ("/" +:+ ?s) with (String "/" s). cbn [list_ascii_of_string].
  by rewrite list_ascii_of_string_of_list_ascii.
Qed.

Lemma normalizePath_rooted (x : string) :
  normalizePath (Sftp.toSFTPPath x) = normalizePath x.
Proof.
  unfold normalizePath at 1. rewrite list_of_toSFTPPath.
  cbn [components]. change (isSep "/") with true. cbv iota.
  rewrite components_join; [done|]. apply components_good. constructor.
Qed.

(** C3: for every input [x], [toSFTPPath x] starts with exactly one ['/'],
    contains no doubled separators, and converting it again changes
    nothing. *)
Theorem toSFTPPath_single_root_idempotent (x : string) :
  startsWithOneSlash (Sftp.toSFTPPath x) = true
  ∧ noDoubledSep (list_ascii_of_string (Sftp.toSFTPPath x)) = true
  ∧ Sftp.toSFTPPath (Sftp.toSFTPPath x) = Sftp.toSFTPPath x.
Proof.
  pose proof (components_good (list_ascii_of_string x) [] (List.Forall_nil _)) as Hgood.
  pose proof (join_head _ Hgood) as Hhead.
  pose proof (noDoubledSep_join _ Hgood) as Hnd.
  split; [|split].
  - unfold startsWithOneSlash. rewrite list_of_toSFTPPath.
    destruct (joinPath _) as [|d rest]; [done|]. by rewrite Hhead.
  - rewrite list_of_toSFTPPath.
    destruct (joinPath _) as [|d rest] eqn:E; [done|].
    change (noDoubledSep ("/"%char :: d :: rest))
      with (negb (isSep "/" && isSep d) && noDoubledSep (d :: rest)).
    rewrite Hhead, andb_false_r. exact Hnd.
  - unfold Sftp.toSFTPPath at 1. by rewrite normalizePath_rooted.
Qed.

End PathNormalizer.

(** *** The host verifier *)

Section HostVerifier.
Import Sftp Scripted.

Lemma indexOf_found (x : string) (l : list string) :
  (-1 <? indexOf x l)%Z = bool_decide (x ∈ l).
Proof.
  induction l as [|y l IH]; cbn [indexOf].
  - by rewrite bool_decide_eq_false_2 by apply not_elem_of_nil.
  - destruct (String.eqb_spec y x) as [->|Hne].
    + by rewrite bool_decide_eq_true_2 by (apply elem_of_cons; by left).
    + destruct (indexOf x l <? 0)%Z eqn:Hneg.
      * assert (Hl : x ∉ l).
        { apply (bool_decide_eq_false (x ∈ l)). rewrite <- IH.
          apply Z.ltb_ge. apply Z.ltb_lt in Hneg. lia. }
        rewrite bool_decide_eq_false_2; [done|].
        rewrite elem_of_cons. intros [->|?]; done.
      * assert (Hl : x ∈ l).
        { apply (bool_decide_eq_true (x ∈ l)). rewrite <- IH.
          apply Z.ltb_lt. apply Z.ltb_ge in Hneg. lia. }
        rewrite bool_decide_eq_true_2 by (apply elem_of_cons; by right).
        apply Z.ltb_lt. apply Z.ltb_ge in Hneg. lia.
Qed.

Lemma hostVerifier_member (opts : SFTPConnectionOptions) (keyHash : string) :
  hostVerifier opts keyHash =
  match supportedHashes opts with
  | [] => true
  | _ => bool_decide (Helpers.normalizeString keyHash ∈ supportedHashes opts)
  end.
Proof.
  unfold hostVerifier. destruct (supportedHashes opts) as [|h hs]; [done|].
  simpl length. change (S (length hs) <? 1)%nat with false. cbv iota.
  apply indexOf_found.
Qed.

(** C4: without accepted digests the verifier accepts every host key;
    otherwise it accepts a key exactly when the normalized digest of the
    key is among the accepted digests. With ["abc123"] as the only
    accepted digest, any other digest is refused. *)
Theorem hostVerifier_accepts_configured_digests :
  (∀ opts keyHash,
     hostVerifier opts keyHash =
     match supportedHashes opts with
     | [] => true
     | _ => bool_decide (Helpers.normalizeString keyHash ∈ supportedHashes opts)
     end)
  ∧ (∀ keyHash, hostVerifier (withHashes []) keyHash = true)
  ∧ (∀ keyHash, hostVerifier noOptions keyHash = true)
  ∧ (∀ keyHash,
       hostVerifier (withHashes ["abc123"]) keyHash =
       bool_decide (Helpers.normalizeString keyHash = "abc123")).
Proof.
  split; [exact hostVerifier_member|]. split; [done|]. split; [done|].
  intros keyHash. rewrite hostVerifier_member.
  change (supportedHashes (withHashes ["abc123"])) with ["abc123"].
  apply bool_decide_ext. by rewrite list_elem_of_singleton.
Qed.

(** A refused host key fails [openConnection]. *)
Lemma openConnection_refused {R} (T : Transport R) (opts : SFTPConnectionOptions)
    (w : World) :
  hostVerifier opts
    (sftp_hostKey T (cfg_hostHash (connectConfig opts)) (remote w)) = false ->
  (openConnection T opts w).1.1 = Throw (Error "Host denied (verification failed)").
Proof.
  intros H. unfold openConnection, bind, createClient, connect.
  cbn -[hostVerifier] in *. by rewrite H.
Qed.

Lemma supportedHashes_all_empty (opts : SFTPConnectionOptions) :
  (∀ h, h ∈ Helpers.asArray (hashes opts) -> Helpers.normalizeString h = "") ->
  supportedHashes opts = [].
Proof.
  unfold supportedHashes. induction (Helpers.asArray (hashes opts)) as [|h l IH];
    intros Hall; [done|].
  simpl. rewrite (Hall h) by (apply elem_of_cons; by left). simpl.
  apply IH. intros h' Hh'. apply Hall. apply elem_of_cons. by right.
Qed.

(** C10: when every configured digest normalizes to the empty string, the
    digests are all filtered out before the verifier looks at their
    number, and the verifier accepts every host key. *)
Theorem hostVerifier_only_blank_digests (opts : SFTPConnectionOptions) :
  Helpers.asArray (hashes opts) ≠ [] ->
  (∀ h, h ∈ Helpers.asArray (hashes opts) -> Helpers.normalizeString h = "") ->
  supportedHashes opts = [] ∧ ∀ keyHash, hostVerifier opts keyHash = true.
Proof.
  intros _ Hall. pose proof (supportedHashes_all_empty opts Hall) as Hs.
  split; [done|]. intros keyHash. by rewrite hostVerifier_member, Hs.
Qed.

Lemma hostVerifier_only_blank_digests_witness :
  let opts := withHashes [""; "   "] in
  supportedHashes opts = [] ∧ ∀ keyHash, hostVerifier opts keyHash = true.
Proof.
  apply hostVerifier_only_blank_digests.
  - simpl. discriminate.
  - intros h Hh. simpl in Hh.
    apply elem_of_cons in Hh as [->|Hh]; [reflexivity|].
    apply list_elem_of_singleton in Hh as ->. reflexivity.
Defined.

End HostVerifier.

(** *** The order of the keys of an object *)

Section KeyOrder.

Lemma insertIndex_perm (k : string * Z) (l : list (string * Z)) :
  JS.insertIndex k l ≡ₚ k :: l.
Proof.
  induction l as [|h t IH]; cbn [JS.insertIndex]; [done|].
  destruct (k.2 <=? h.2)%Z; [done|]. rewrite IH. apply Permutation_swap.
Qed.

Lemma sortIndices_perm (l : list (string * Z)) : JS.sortIndices l ≡ₚ l.
Proof.
  induction l as [|k l IH]; [done|].
  unfold JS.sortIndices in *. cbn [foldr]. rewrite insertIndex_perm. by f_equiv.
Qed.

Lemma insertIndex_sorted (k : string * Z) (l : list (string * Z)) :
  StronglySorted (fun a b => (a.2 ≤ b.2)%Z) l ->
  StronglySorted (fun a b => (a.2 ≤ b.2)%Z) (JS.insertIndex k l).
Proof.
  induction 1 as [|h t Hsorted IH Hall]; cbn [JS.insertIndex].
  - repeat constructor.
  - destruct (k.2 <=? h.2)%Z eqn:Hle.
    + apply Z.leb_le in Hle. constructor; [by constructor|].
      constructor; [done|]. eapply Forall_impl; [exact Hall|].
      intros x Hx. cbn beta in *. lia.
    + apply Z.leb_gt in Hle. constructor; [done|].
      rewrite insertIndex_perm. constructor; [lia|done].
Qed.

(** The array indices among the keys are visited in ascending order. *)
Lemma sortIndices_ascending (l : list (string * Z)) :
  StronglySorted (fun a b => (a.2 ≤ b.2)%Z) (JS.sortIndices l).
Proof.
  induction l as [|k l IH]; [constructor|].
  unfold JS.sortIndices in *. cbn [foldr]. by apply insertIndex_sorted.
Qed.

Lemma indexKeys_filter (ks : list string) :
  map fst (JS.indexKeys ks) = filter (fun k => ¬ JS.arrayIndex k = None) ks.
Proof.
  induction ks as [|k ks IH]; [done|].
  unfold JS.indexKeys in *. cbn [omap list_omap]. rewrite filter_cons.
  destruct (JS.arrayIndex k) as [i|]; cbn.
  - rewrite decide_True by done. by rewrite <- IH.
  - rewrite decide_False by (intros H; by apply H). exact IH.
Qed.

(** [for ... in] visits every key once: the keys in the order of their
    first declaration, rearranged. *)
Lemma forInKeys_perm {V} (o : JS.Object V) :
  JS.forInKeys o ≡ₚ JS.dedup [] (map fst o).
Proof.
  unfold JS.forInKeys. rewrite sortIndices_perm, indexKeys_filter.
  unfold JS.nameKeys.
  rewrite (Permutation_app_comm (filter (λ k, ¬ JS.arrayIndex k = None) _)).
  apply (filter_app_complement (fun k => JS.arrayIndex k = None)).
Qed.

End KeyOrder.

(** *** The permission resolver *)

Section PermissionResolver.
Import Sftp Props Scripted.
Variable doesMatch : string -> string -> bool.

Lemma matchMode_find (fm : JS.Object SFTPFileMode) (path : string)
    (keys : list string) :
  snd <$> matchMode doesMatch fm path keys
  = match List.find (fun P => doesMatch path (rooted P)) keys with
    | Some P => Some (JS.parseInt8 (JS.trim (modeText (JS.get fm P))))
    | None => None
    end.
Proof.
  induction keys as [|P keys IH]; [done|].
  cbn [matchMode List.find]. by destruct (doesMatch path (rooted P)).
Qed.

Lemma modeToSet_patterns (opts : SFTPConnectionOptions)
    (o : JS.Object SFTPFileMode) (path : string) :
  modes opts = Some (ModePatterns o) ->
  modeToSet doesMatch opts path = modeByKeyOrder doesMatch o path.
Proof.
  intros Hm. unfold modeToSet, fileModesOf, modeByKeyOrder. rewrite Hm.
  cbn [mbind option_bind]. apply matchMode_find.
Qed.

Lemma dedup_subset {K} `{EqDecision K} (ks seen : list K) (k : K) :
  k ∈ JS.dedup seen ks -> k ∈ ks.
Proof.
  revert seen. induction ks as [|x ks IH]; intros seen; cbn [JS.dedup]; [done|].
  case_bool_decide.
  - intros ?%IH. apply elem_of_cons. by right.
  - intros [->|?%IH]%elem_of_cons; apply elem_of_cons; by eauto.
Qed.

Lemma find_dedup {K} `{EqDecision K} (f : K -> bool) (ks seen : list K) :
  (∀ k, k ∈ seen -> f k = false) ->
  List.find f (JS.dedup seen ks) = List.find f ks.
Proof.
  revert seen. induction ks as [|x ks IH]; intros seen Hseen; [done|].
  cbn [JS.dedup List.find]. case_bool_decide as Hx.
  - rewrite (Hseen x Hx). by apply IH.
  - cbn [List.find]. destruct (f x) eqn:Hf; [done|].
    apply IH. intros k [->|?]%elem_of_cons; by eauto.
Qed.

Lemma find_map_fst {V} (f : string -> bool) (o : list (string * V)) :
  List.find f (map fst o) = fst <$> List.find (fun kv => f kv.1) o.
Proof.
  induction o as [|[k v] o IH]; [done|]. cbn [map List.find fst].
  by destruct (f k).
Qed.

Lemma indexKeys_none (ks : list string) :
  (∀ k, k ∈ ks -> JS.arrayIndex k = None) -> JS.indexKeys ks = [].
Proof.
  induction ks as [|k ks IH]; intros Hks; [done|].
  unfold JS.indexKeys. cbn [omap list_omap].
  rewrite (Hks k) by (apply elem_of_cons; by left). cbn [fmap option_fmap option_map].
  apply IH. intros k' ?. apply Hks. apply elem_of_cons. by right.
Qed.

Lemma nameKeys_all (ks : list string) :
  (∀ k, k ∈ ks -> JS.arrayIndex k = None) -> JS.nameKeys ks = ks.
Proof.
  induction ks as [|k ks IH]; intros Hks; [done|].
  unfold JS.nameKeys. rewrite filter_cons.
  rewrite decide_True by (apply Hks, elem_of_cons; by left).
  f_equal. apply IH. intros k' ?. apply Hks. apply elem_of_cons. by right.
Qed.

(** Without array indices among the keys, [for ... in] visits the keys
    in the order in which they were first written. *)
Lemma forInKeys_declared {V} (o : JS.Object V) :
  (∀ kv, kv ∈ o -> JS.arrayIndex kv.1 = None) ->
  JS.forInKeys o = JS.dedup [] (map fst o).
Proof.
  intros Ho. unfold JS.forInKeys.
  assert (Hks : ∀ k, k ∈ JS.dedup [] (map fst o) -> JS.arrayIndex k = None).
  { intros k Hk%dedup_subset. apply list_elem_of_fmap in Hk as (kv & -> & Hkv).
    by apply Ho. }
  by rewrite indexKeys_none, nameKeys_all.
Qed.

Lemma modeByKeyOrder_declared (o : JS.Object SFTPFileMode) (path : string) :
  (∀ kv, kv ∈ o -> JS.arrayIndex kv.1 = None) ->
  modeByKeyOrder doesMatch o path = modeByDeclaredOrder doesMatch o path.
Proof.
  intros Ho. unfold modeByKeyOrder, modeByDeclaredOrder.
  rewrite forInKeys_declared by done.
  rewrite find_dedup by (intros k ?%elem_of_nil; done).
  rewrite find_map_fst.
  by destruct (List.find _ o) as [[k v]|].
Qed.

(** C2, as the client does it: the patterns of a pattern map are tried in
    the enumeration order of the keys of the map, and the first one whose
    rooted pattern matches the converted path decides; its value, trimmed,
    is read as an octal number. When no pattern is an array index this is
    the order of declaration. For [{"**/*.sh": "755", "**/*": "644"}] and
    [/a/b.sh] the mode is 0o755 = 493. *)
Theorem modeToSet_first_match_in_key_order (opts : SFTPConnectionOptions)
    (o : JS.Object SFTPFileMode) (path : string) :
  modes opts = Some (ModePatterns o) ->
  modeToSet doesMatch opts path = modeByKeyOrder doesMatch o path
  ∧ ((∀ kv, kv ∈ o -> JS.arrayIndex kv.1 = None) ->
     modeToSet doesMatch opts path = modeByDeclaredOrder doesMatch o path)
  ∧ (o = [("**/*.sh", ModeString "755"); ("**/*", ModeString "644")] ->
     doesMatch "/a/b.sh" "/**/*.sh" = true ->
     path = "/a/b.sh" ->
     modeToSet doesMatch opts path = Some (JS.Int 493)).
Proof.
  intros Hm. pose proof (modeToSet_patterns opts o path Hm) as Hkey.
  split; [done|]. split.
  - intros Ho. rewrite Hkey. by apply modeByKeyOrder_declared.
  - intros -> Hsh ->. rewrite Hkey. unfold modeByKeyOrder.
    change (JS.forInKeys _) with ["**/*.sh"; "**/*"].
    cbn [List.find]. change (rooted "**/*.sh") with "/**/*.sh".
    by rewrite Hsh.
Qed.

End PermissionResolver.

Lemma modeToSet_first_match_in_key_order_witness :
  let o := [("**/*.sh", Sftp.ModeString "755"); ("**/*", Sftp.ModeString "644")] in
  let opts := Scripted.withModes (Sftp.ModePatterns o) in
  Sftp.modeToSet Glob.doesMatch opts "/a/b.sh" = Some (JS.Int 493).
Proof.
  intros o opts.
  refine (proj2 (proj2 (modeToSet_first_match_in_key_order
                          Glob.doesMatch opts o "/a/b.sh" _)) _ _ _);
    reflexivity.
Defined.

(** C2, as stated, fails: with [{"**/*": "644", "7": "755"}] the first
    declared pattern that matches [/7] is ["**/*"], yet the client sets
    0o755 = 493 and not 0o644 = 420, because the key ["7"] is enumerated
    first. *)
Lemma declared_order_not_followed :
  let o := [("**/*", Sftp.ModeString "644"); ("7", Sftp.ModeString "755")] in
  Props.modeByDeclaredOrder Glob.doesMatch o "/7" = Some (JS.Int 420)
  ∧ Sftp.modeToSet Glob.doesMatch (Scripted.withModes (Sftp.ModePatterns o)) "/7"
    = Some (JS.Int 493)
  ∧ Sftp.modeToSet Glob.doesMatch (Scripted.withModes (Sftp.ModePatterns o)) "/7"
    ≠ Props.modeByDeclaredOrder Glob.doesMatch o "/7".
Proof. intros o. split; [reflexivity|]. split; [reflexivity|]. discriminate. Qed.

(** *** Uploads *)

Section Upload.
Import Sftp.
Context {R : Type} (T : Transport R).
Variable doesMatch : string -> string -> bool.
Variable dirname : string -> string.

Lemma lookup_marked (m : gmap nat (gmap string bool)) (h : nat) (dir d : string) :
  <[h := <[dir := true]> (default ∅ (m !! h))]> m !! h ≫= (.!! d)
  = if bool_decide (d = dir) then Some true else m !! h ≫= (.!! d).
Proof.
  rewrite lookup_insert_eq. cbn [mbind option_bind].
  case_bool_decide as Hd.
  - subst d. by rewrite lookup_insert_eq.
  - rewrite lookup_insert_ne by done.
    destruct (m !! h); [done|]. apply lookup_empty.
Qed.

(** The mode search leaves the world alone, finds [modeToSet] and logs
    one notice when modes are configured. *)
Lemma findMode_run (c : SFTPClient) (p : string) (w : World (R:=R)) :
  ∃ logs,
    findMode doesMatch c p w = (Ok (modeToSet doesMatch (options c) p), w, logs)
    ∧ ∀ ev, ev ∈ logs -> ∃ m, ev = Log notice m "clients.sftp.uploadFile(3)".
Proof.
  unfold findMode, modeToSet.
  destruct (fileModesOf (options c)) as [fm|]; simpl.
  - destruct (matchMode doesMatch fm p (JS.forInKeys fm)) as [[P mode]|]; simpl;
      eexists; (split; [reflexivity|]); intros ev Hev;
      apply list_elem_of_singleton in Hev as ->; eauto.
  - exists []. split; [reflexivity|]. intros ev Hev. by apply elem_of_nil in Hev.
Qed.

(** The runs of the directory check: a cache hit does nothing; otherwise
    the directory is listed and, when that fails, created; it is marked
    when one of the two succeeded. *)
Lemma checkRemoteDir_run (c : SFTPClient) (dir : string) (w : World (R:=R)) r w1 evs :
  checkRemoteDir T c dir w = (r, w1, evs) ->
  (checked c dir w = Some true ∧ r = Ok tt ∧ w1 = w ∧ evs = [])
  ∨ (checked c dir w ≠ Some true
     ∧ ((r = Ok tt
         ∧ (evs = [List (client c) dir true]
            ∨ evs = [List (client c) dir false; Mkdir (client c) dir true None])
         ∧ ∀ d, checked c d w1
                = if bool_decide (d = dir) then Some true else checked c d w)
        ∨ (∃ e, r = Throw e
             ∧ evs = [List (client c) dir false; Mkdir (client c) dir true (Some e)]
             ∧ checkedRemoteDirs w1 = checkedRemoteDirs w))).
Proof.
  unfold checkRemoteDir.
  destruct (checked c dir w) as [[|]|] eqn:Hc.
  1: { unfold ret. intros [= <- <- <-]. by left. }
  all: intros Hrun; right; (split; [done|]).
  all: unfold bind, tryCatch, list_, call, ret in Hrun.
  all: unfold markChecked in Hrun.
  all: destruct (sftp_list T dir (remote w)) as [[e|l] r1]; cbn in Hrun.
  all: try (destruct (sftp_mkdir T dir true r1) as [[e'|] r2]; cbn in Hrun).
  all: injection Hrun as <- <- <-.
  all: try (right; by eauto).
  all: left; (split; [done|]); (split; [by eauto|]); intros d.
  all: unfold checked; cbn [checkedRemoteDirs]; apply lookup_marked.
Qed.

(** The runs of [uploadFile]: the directory check, the notices of the
    mode search, then the write and, with a mode to set, the [chmod]. *)
Lemma uploadFile_run (c : SFTPClient) (path : string) (data : Buffer)
    (w : World (R:=R)) res w' evs :
  uploadFile T doesMatch dirname c path data w = (res, w', evs) ->
  let dir := toSFTPPath (dirname path) in
  let p := toSFTPPath path in
  let h := client c in
  ∃ rdir w1 evsDir logs rest,
    checkRemoteDir T c dir w = (rdir, w1, evsDir)
    ∧ checkedRemoteDirs w' = checkedRemoteDirs w1
    ∧ evs = evsDir ++ logs ++ rest
    ∧ (∀ ev, ev ∈ logs -> ∃ m, ev = Log notice m "clients.sftp.uploadFile(3)")
    ∧ ((∃ e, rdir = Throw e ∧ res = Throw e ∧ logs = [] ∧ rest = [])
       ∨ (rdir = Ok tt
          ∧ ((∃ e, rest = [Put h data p (Some e)] ∧ res = Throw e)
             ∨ (modeToSet doesMatch (options c) p = None
                ∧ rest = [Put h data p None] ∧ res = Ok tt)
             ∨ (∃ mode, modeToSet doesMatch (options c) p = Some mode
                  ∧ rest = [Put h data p None;
                            Log info (Text ("Setting mode for '" +:+ p +:+ "' to "
                                            +:+ JS.toString8 mode +:+ " ..."))
                              "clients.sftp.uploadFile(1)";
                            Chmod h p mode None]
                  ∧ res = Ok tt)
             ∨ (∃ mode e, modeToSet doesMatch (options c) p = Some mode
                  ∧ rest = [Put h data p None;
                            Log info (Text ("Setting mode for '" +:+ p +:+ "' to "
                                            +:+ JS.toString8 mode +:+ " ..."))
                              "clients.sftp.uploadFile(1)";
                            Chmod h p mode (Some e);
                            Log trace (OfError e) "clients.sftp.uploadFile(2)"]
                  ∧ res = Throw e)))).
Proof.
  pose (tidy := λ (l m n : list Event), eq_sym (app_assoc l m n)).
  intros Hrun dir p h. fold dir p in Hrun.
  unfold uploadFile, promise, tryCatch in Hrun. unfold bind at 1 in Hrun.
  fold dir p in Hrun.
  destruct (checkRemoteDir T c dir w) as [[rdir w1] evsDir] eqn:Hdir.
  destruct (checkRemoteDir_run _ _ _ _ _ _ Hdir) as
    [(_ & -> & _ & _)|(_ & [(-> & _ & _)|(e & -> & _ & _)])].
  3: { cbn in Hrun. injection Hrun as <- <- <-.
       exists (Throw e), w1, evsDir, [], []. rewrite !app_nil_r.
       repeat split; [by intros ? ?%elem_of_nil|]. left. by eauto. }
  all: unfold bind at 1 in Hrun.
  all: destruct (findMode_run c p w1) as (logs & Hfm & Hlogs).
  all: cbn [fst snd] in Hrun; rewrite Hfm in Hrun.
  all: exists (Ok tt), w1, evsDir, logs.
  all: unfold bind, call, chmod, log, emit, ret in Hrun.
  all: destruct (sftp_put T data p (remote w1)) as [[ep|] r2]; cbn in Hrun;
         rewrite ?app_nil_r, ?tidy in Hrun; cbn [app] in Hrun.
  all: try (injection Hrun as <- <- <-; eexists; repeat split; [done|];
            right; split; [done|]; left; by eauto).
  all: destruct (modeToSet doesMatch (options c) p) as [mode|] eqn:Hmode;
         cbn in Hrun; rewrite ?app_nil_r, ?tidy in Hrun; cbn [app] in Hrun.
  all: try (injection Hrun as <- <- <-; eexists; repeat split; [done|];
            right; split; [done|]; right; left; by eauto).
  all: destruct (sftp_chmod T p mode r2) as [[ec|] r3]; cbn in Hrun;
         rewrite ?app_nil_r, ?tidy in Hrun; cbn [app] in Hrun.
  all: injection Hrun as <- <- <-; eexists; repeat split; [done|];
         right; split; [done|]; right; right;
         first [left; by eauto | right; by eauto].
Qed.

Lemma checkRemoteDir_events (c : SFTPClient) (dir : string) (w : World (R:=R)) r w1 evs :
  checkRemoteDir T c dir w = (r, w1, evs) ->
  ∀ ev, ev ∈ evs -> Props.dirEvent ev = true.
Proof.
  intros Hrun ev Hev.
  destruct (checkRemoteDir_run _ _ _ _ _ _ Hrun) as
    [(_ & _ & _ & ->)|(_ & [(_ & [->| ->] & _)|(e & _ & -> & _)])];
    rewrite ?elem_of_cons, ?elem_of_nil in Hev; destruct_or?; by subst.
Qed.

(** C1, as the client does it: when the [chmod] after a successful write
    fails, the error is logged and [uploadFile] is rejected with it. *)
Theorem uploadFile_chmod_failure_logged_and_raised (c : SFTPClient)
    (path : string) (data : Buffer) (w : World (R:=R)) res w' evs h p mode e :
  uploadFile T doesMatch dirname c path data w = (res, w', evs) ->
  Chmod h p mode (Some e) ∈ evs ->
  modeToSet doesMatch (options c) (toSFTPPath path) = Some mode
  ∧ Put (client c) data (toSFTPPath path) None ∈ evs
  ∧ Log trace (OfError e) "clients.sftp.uploadFile(2)" ∈ evs
  ∧ res = Throw e.
Proof.
  intros Hrun Hin.
  destruct (uploadFile_run _ _ _ _ _ _ _ Hrun) as
    (rdir & w1 & evsDir & logs & rest & Hdir & _ & -> & Hlogs & Hcases).
  rewrite !elem_of_app in Hin. destruct Hin as [Hin|[Hin|Hin]].
  { by apply (checkRemoteDir_events _ _ _ _ _ _ Hdir) in Hin. }
  { apply Hlogs in Hin as [m ?]. done. }
  destruct Hcases as [(e0 & _ & _ & _ & ->)|(_ & [(e0 & -> & _)|[(_ & -> & _)|
    [(mode0 & Hmode & -> & _)|(mode0 & e0 & Hmode & -> & ->)]]])];
    rewrite ?elem_of_cons, ?elem_of_nil in Hin;
    destruct_or?; simplify_eq.
  repeat split; rewrite ?elem_of_app, ?elem_of_cons; by eauto 12.
Qed.

(** The counterpart: a [chmod] that succeeds resolves [uploadFile]. *)
Lemma uploadFile_chmod_success (c : SFTPClient)
    (path : string) (data : Buffer) (w : World (R:=R)) res w' evs h p mode :
  uploadFile T doesMatch dirname c path data w = (res, w', evs) ->
  Chmod h p mode None ∈ evs ->
  res = Ok tt.
Proof.
  intros Hrun Hin.
  destruct (uploadFile_run _ _ _ _ _ _ _ Hrun) as
    (rdir & w1 & evsDir & logs & rest & Hdir & _ & -> & Hlogs & Hcases).
  rewrite !elem_of_app in Hin. destruct Hin as [Hin|[Hin|Hin]].
  { by apply (checkRemoteDir_events _ _ _ _ _ _ Hdir) in Hin. }
  { apply Hlogs in Hin as [m ?]. done. }
  destruct Hcases as [(e0 & _ & _ & _ & ->)|(_ & [(e0 & -> & _)|[(_ & -> & _)|
    [(mode0 & Hmode & -> & ->)|(mode0 & e0 & Hmode & -> & ->)]]])];
    rewrite ?elem_of_cons, ?elem_of_nil in Hin;
    destruct_or?; by simplify_eq.
Qed.

(** C9: when the first matching pattern carries a value that is not an
    octal number, the mode to set is [NaN]; [NaN] is not the [false] that
    stands for "no pattern matched", so once the file is written the
    [chmod] is issued with [NaN]. *)
Theorem uploadFile_unparseable_mode_is_NaN (c : SFTPClient)
    (path : string) (data : Buffer) (w : World (R:=R)) res w' evs fileModes P :
  fileModesOf (options c) = Some fileModes ->
  List.find (fun P => doesMatch (toSFTPPath path) (rooted P))
    (JS.forInKeys fileModes) = Some P ->
  JS.parseInt8 (JS.trim (modeText (JS.get fileModes P))) = JS.NaN ->
  uploadFile T doesMatch dirname c path data w = (res, w', evs) ->
  modeToSet doesMatch (options c) (toSFTPPath path) = Some JS.NaN
  ∧ (Put (client c) data (toSFTPPath path) None ∈ evs ->
     ∃ err, Chmod (client c) (toSFTPPath path) JS.NaN err ∈ evs).
Proof.
  intros Hfm Hfind Hnan Hrun.
  assert (Hmode : modeToSet doesMatch (options c) (toSFTPPath path) = Some JS.NaN).
  { unfold modeToSet. rewrite Hfm. cbn [mbind option_bind].
    rewrite matchMode_find, Hfind. by rewrite Hnan. }
  split; [done|]. intros Hput.
  destruct (uploadFile_run _ _ _ _ _ _ _ Hrun) as
    (rdir & w1 & evsDir & logs & rest & Hdir & _ & -> & Hlogs & Hcases).
  rewrite !elem_of_app in Hput. destruct Hput as [Hin|[Hin|Hin]].
  { by apply (checkRemoteDir_events _ _ _ _ _ _ Hdir) in Hin. }
  { apply Hlogs in Hin as [m ?]. done. }
  destruct Hcases as [(e0 & _ & _ & _ & ->)|(_ & [(e0 & -> & _)|[(Hnone & -> & _)|
    [(mode0 & Hmode0 & -> & _)|(mode0 & e0 & Hmode0 & -> & _)]]])];
    rewrite ?elem_of_cons, ?elem_of_nil in Hin;
    destruct_or?; simplify_eq.
  - exists None. rewrite !elem_of_app, !elem_of_cons. by eauto 12.
  - exists (Some e0). rewrite !elem_of_app, !elem_of_cons. by eauto 12.
Qed.

(** **** The cache of checked directories *)

Lemma checked_ext (c : SFTPClient) (d : string) (w1 w2 : World (R:=R)) :
  checkedRemoteDirs w1 = checkedRemoteDirs w2 -> checked c d w1 = checked c d w2.
Proof. unfold checked. by intros ->. Qed.

(** A directory that an upload leaves marked was marked before, or the
    upload saw it listed or created. *)
Lemma uploadFile_marks (c : SFTPClient) (path : string) (data : Buffer)
    (w : World (R:=R)) res w' evs (d : string) :
  uploadFile T doesMatch dirname c path data w = (res, w', evs) ->
  checked c d w' = Some true ->
  checked c d w = Some true ∨ Props.confirmed (client c) d evs.
Proof.
  intros Hrun Hd.
  destruct (uploadFile_run _ _ _ _ _ _ _ Hrun) as
    (rdir & w1 & evsDir & logs & rest & Hdir & Hsame & -> & _ & _).
  rewrite (checked_ext c d _ _ Hsame) in Hd.
  destruct (checkRemoteDir_run _ _ _ _ _ _ Hdir) as
    [(_ & _ & -> & _)|(_ & [(_ & Hevs & Hmark)|(e & _ & _ & Hkeep)])].
  - by left.
  - rewrite Hmark in Hd. case_bool_decide as Heq; [subst d|by left].
    right. unfold Props.confirmed. rewrite !elem_of_app.
    destruct Hevs as [-> | ->]; rewrite !elem_of_cons; by eauto 8.
  - left. by rewrite <- (checked_ext c d _ _ Hkeep).
Qed.

Lemma listDirectory_keeps (c : SFTPClient) (path : string) (w : World (R:=R))
    res w' evs :
  listDirectory T c path w = (res, w', evs) ->
  checkedRemoteDirs w' = checkedRemoteDirs w.
Proof.
  unfold listDirectory, bind, list_, ret.
  destruct (sftp_list T _ (remote w)) as [[e|l] r]; by intros [= <- <- <-].
Qed.

Lemma downloadFile_keeps (c : SFTPClient) (path : string) (w : World (R:=R))
    res w' evs :
  downloadFile T c path w = (res, w', evs) ->
  checkedRemoteDirs w' = checkedRemoteDirs w.
Proof.
  unfold downloadFile.
  destruct (sftp_get T _ (remote w)) as [[e|l] r]; by intros [= <- <- <-].
Qed.

Lemma deleteFile_keeps (c : SFTPClient) (path : string) (w : World (R:=R))
    res w' evs :
  deleteFile T c path w = (res, w', evs) ->
  checkedRemoteDirs w' = checkedRemoteDirs w.
Proof.
  unfold deleteFile, tryCatch, bind, call, ret.
  destruct (sftp_delete T _ (remote w)) as [[e|] r]; by intros [= <- <- <-].
Qed.

Lemma runOp_marks (c : SFTPClient) (op : Op) (w : World (R:=R)) w' evs (d : string) :
  runOp T doesMatch dirname c op w = (w', evs) ->
  checked c d w' = Some true ->
  checked c d w = Some true ∨ Props.confirmed (client c) d evs.
Proof.
  destruct op as [path data|path|path|path]; cbn [runOp].
  - destruct (uploadFile _ _ _ _ _ _ _) as [[res w1] evs1] eqn:Hrun.
    intros [= <- <-]. by eapply uploadFile_marks.
  - destruct (listDirectory _ _ _ _) as [[res w1] evs1] eqn:Hrun.
    intros [= <- <-] Hd. left.
    by rewrite <- (checked_ext c d _ _ (listDirectory_keeps _ _ _ _ _ _ Hrun)).
  - destruct (downloadFile _ _ _ _) as [[res w1] evs1] eqn:Hrun.
    intros [= <- <-] Hd. left.
    by rewrite <- (checked_ext c d _ _ (downloadFile_keeps _ _ _ _ _ _ Hrun)).
  - destruct (deleteFile _ _ _ _) as [[res w1] evs1] eqn:Hrun.
    intros [= <- <-] Hd. left.
    by rewrite <- (checked_ext c d _ _ (deleteFile_keeps _ _ _ _ _ _ Hrun)).
Qed.

Lemma runOps_marks (c : SFTPClient) (ops : list Op) (w : World (R:=R)) w' evs
    (d : string) :
  runOps T doesMatch dirname c ops w = (w', evs) ->
  checked c d w' = Some true ->
  checked c d w = Some true ∨ Props.confirmed (client c) d evs.
Proof.
  revert w evs. induction ops as [|op ops IH]; intros w evs; cbn [runOps].
  - intros [= <- <-]. by left.
  - destruct (runOp _ _ _ _ op w) as [w1 evs1] eqn:Hop.
    destruct (runOps _ _ _ _ ops w1) as [w2 evs2] eqn:Hops.
    intros [= <- <-] Hd.
    destruct (IH _ _ Hops Hd) as [Hd1|[Hc|Hc]].
    + destruct (runOp_marks _ _ _ _ _ _ Hop Hd1) as [?|[Hc|Hc]]; [by left|..];
        right; unfold Props.confirmed; rewrite !elem_of_app; by eauto.
    + right. unfold Props.confirmed. rewrite !elem_of_app. by eauto.
    + right. unfold Props.confirmed. rewrite !elem_of_app. by eauto.
Qed.

(** After an upload that resolved, the parent directory is marked. *)
Lemma uploadFile_marks_parent (c : SFTPClient) (path : string) (data : Buffer)
    (w : World (R:=R)) w' evs :
  uploadFile T doesMatch dirname c path data w = (Ok tt, w', evs) ->
  checked c (toSFTPPath (dirname path)) w' = Some true.
Proof.
  intros Hrun.
  destruct (uploadFile_run _ _ _ _ _ _ _ Hrun) as
    (rdir & w1 & evsDir & logs & rest & Hdir & Hsame & _ & _ & Hcases).
  rewrite (checked_ext c _ _ _ Hsame).
  destruct (checkRemoteDir_run _ _ _ _ _ _ Hdir) as
    [(Hhit & _ & -> & _)|(_ & [(_ & _ & Hmark)|(e & -> & _ & _)])].
  - done.
  - rewrite Hmark. by rewrite bool_decide_eq_true_2.
  - destruct Hcases as [(e0 & _ & ? & _)|(? & _)]; done.
Qed.

(** A session that was just opened has checked no directory. *)
Lemma openConnection_fresh (opts : SFTPConnectionOptions) (w0 : World (R:=R))
    c w evs (d : string) :
  openConnection T opts w0 = (Ok c, w, evs) -> checked c d w = None.
Proof.
  unfold openConnection, bind, createClient, connect, call, ret.
  cbn -[hostVerifier insert lookup]. destruct (hostVerifier _ _); [|done].
  destruct (sftp_connect T _ (remote w0)) as [[e|] r]; [done|].
  cbn -[hostVerifier insert lookup]. intros [= <- <- <-]. unfold checked.
  unfold setRemote. cbn [checkedRemoteDirs client]. by rewrite lookup_insert_eq.
Qed.

(** An upload into a directory that is marked issues no call that checks
    or creates a directory. *)
Lemma uploadFile_cache_hit (c : SFTPClient) (path : string) (data : Buffer)
    (w : World (R:=R)) res w' evs :
  checked c (toSFTPPath (dirname path)) w = Some true ->
  uploadFile T doesMatch dirname c path data w = (res, w', evs) ->
  (∀ ev, ev ∈ evs -> Props.dirEvent ev = false)
  ∧ checkedRemoteDirs w' = checkedRemoteDirs w.
Proof.
  intros Hhit Hrun.
  destruct (uploadFile_run _ _ _ _ _ _ _ Hrun) as
    (rdir & w1 & evsDir & logs & rest & Hdir & Hsame & -> & Hlogs & Hcases).
  destruct (checkRemoteDir_run _ _ _ _ _ _ Hdir) as
    [(_ & -> & -> & ->)|(Hmiss & _)]; [|done].
  split; [|done]. intros ev Hev. rewrite !elem_of_app in Hev.
  destruct Hev as [Hev|[Hev|Hev]].
  { by apply elem_of_nil in Hev. }
  { apply Hlogs in Hev as [m ->]. done. }
  destruct Hcases as [(e0 & ? & _)|(_ & [(e0 & -> & _)|[(_ & -> & _)|
    [(mode0 & _ & -> & _)|(mode0 & e0 & _ & -> & _)]]])]; [done|..];
    rewrite ?elem_of_cons, ?elem_of_nil in Hev; destruct_or?; by subst.
Qed.

(** C7: in a session, a directory is marked as present only after the
    client saw it listed or created recursively; and the upload of a file
    whose parent directory is marked skips the check and the creation. *)
Theorem checkedRemoteDirs_marked_after_success_then_skipped
    (opts : SFTPConnectionOptions) (w0 : World (R:=R)) c w evs0
    (ops : list Op) w' evs (path : string) (data : Buffer) res w'' evs' :
  openConnection T opts w0 = (Ok c, w, evs0) ->
  runOps T doesMatch dirname c ops w = (w', evs) ->
  uploadFile T doesMatch dirname c path data w' = (res, w'', evs') ->
  (∀ dir, checked c dir w' = Some true -> Props.confirmed (client c) dir evs)
  ∧ (checked c (toSFTPPath (dirname path)) w' = Some true ->
     (∀ ev, ev ∈ evs' -> Props.dirEvent ev = false)
     ∧ checkedRemoteDirs w'' = checkedRemoteDirs w').
Proof.
  intros Hopen Hops Hup. split.
  - intros dir Hdir.
    destruct (runOps_marks _ _ _ _ _ _ Hops Hdir) as [Hbefore|?]; [|done].
    by rewrite (openConnection_fresh _ _ _ _ _ dir Hopen) in Hbefore.
  - intros Hhit. by eapply uploadFile_cache_hit.
Qed.

End Upload.

Section UploadRuns.
Import Sftp Scripted.

Lemma run_eta {A B C} (x : A * B * C) : x = (x.1.1, x.1.2, x.2).
Proof. by destruct x as [[? ?] ?]. Qed.

Lemma run_eta2 {A B} (x : A * B) : x = (x.1, x.2).
Proof. by destruct x. Qed.

(** C1, as stated, fails: the write succeeds, the [chmod] is refused, and
    [uploadFile] is rejected with the error of the [chmod]. *)
Lemma chmod_failure_rejects_upload :
  let opts := withModes (SingleMode (ModeString "644")) in
  let data := [Byte.x68; Byte.x69] in
  let run := uploadFile (transport chmodDenied) Glob.doesMatch Path.dirname
               (client0 opts) "a/b.txt" data world0 in
  modeToSet Glob.doesMatch opts "/a/b.txt" = Some (JS.Int 420)
  ∧ run.2 = [List 0 "/a" true;
             Log notice (Text "'/a/b.txt' matches with mode pattern '**/*'")
               "clients.sftp.uploadFile(3)";
             Put 0 data "/a/b.txt" None;
             Log info (Text "Setting mode for '/a/b.txt' to 644 ...")
               "clients.sftp.uploadFile(1)";
             Chmod 0 "/a/b.txt" (JS.Int 420) (Some (Error "EPERM"));
             Log trace (OfError (Error "EPERM")) "clients.sftp.uploadFile(2)"]
  ∧ run.1.1 = Throw (Error "EPERM")
  ∧ run.1.1 ≠ Ok tt.
Proof.
  intros opts data run.
  split; [reflexivity|]. split; [reflexivity|]. split; [reflexivity|].
  discriminate.
Qed.

Lemma uploadFile_chmod_failure_logged_and_raised_witness :
  let opts := withModes (SingleMode (ModeString "644")) in
  let data := [Byte.x68; Byte.x69] in
  let run := uploadFile (transport chmodDenied) Glob.doesMatch Path.dirname
               (client0 opts) "a/b.txt" data world0 in
  modeToSet Glob.doesMatch opts "/a/b.txt" = Some (JS.Int 420)
  ∧ Put 0 data "/a/b.txt" None ∈ run.2
  ∧ Log trace (OfError (Error "EPERM")) "clients.sftp.uploadFile(2)" ∈ run.2
  ∧ run.1.1 = Throw (Error "EPERM").
Proof.
  intros opts data run.
  apply (uploadFile_chmod_failure_logged_and_raised (transport chmodDenied)
           Glob.doesMatch Path.dirname (client0 opts) "a/b.txt" data world0
           run.1.1 run.1.2 run.2 0 "/a/b.txt" (JS.Int 420) (Error "EPERM")).
  - apply run_eta.
  - vm_compute. repeat constructor.
Defined.

Lemma uploadFile_unparseable_mode_is_NaN_witness :
  let fileModes := [("**/*", ModeString "rw-r--r--")] in
  let opts := withModes (ModePatterns fileModes) in
  let run := uploadFile (transport allFine) Glob.doesMatch Path.dirname
               (client0 opts) "a/b.txt" [] world0 in
  modeToSet Glob.doesMatch opts "/a/b.txt" = Some JS.NaN
  ∧ ∃ err, Chmod 0 "/a/b.txt" JS.NaN err ∈ run.2.
Proof.
  intros fileModes opts run.
  destruct (uploadFile_unparseable_mode_is_NaN (transport allFine)
              Glob.doesMatch Path.dirname (client0 opts) "a/b.txt" [] world0
              run.1.1 run.1.2 run.2 fileModes "**/*") as [Hmode Hchmod].
  - reflexivity.
  - reflexivity.
  - reflexivity.
  - apply run_eta.
  - split; [exact Hmode|]. apply Hchmod. vm_compute. repeat constructor.
Defined.

Lemma checkedRemoteDirs_marked_after_success_then_skipped_witness :
  let c := client0 noOptions in
  let first := runOps (transport missingDir) Glob.doesMatch Path.dirname c
                 [Upload "a/b.txt" []] world0 in
  let second := uploadFile (transport missingDir) Glob.doesMatch Path.dirname c
                  "a/c.txt" [] first.1 in
  Props.confirmed 0 "/a" first.2
  ∧ (∀ ev, ev ∈ second.2 -> Props.dirEvent ev = false)
  ∧ checkedRemoteDirs second.1.2 = checkedRemoteDirs first.1.
Proof.
  intros c first second.
  destruct (checkedRemoteDirs_marked_after_success_then_skipped
              (transport missingDir) Glob.doesMatch Path.dirname
              noOptions noClient c world0 [Connect 0 (connectConfig noOptions) None]
              [Upload "a/b.txt" []] first.1 first.2 "a/c.txt" []
              second.1.1 second.1.2 second.2) as [Hmarked Hhit].
  - reflexivity.
  - apply run_eta2.
  - apply run_eta.
  - split; [apply Hmarked; reflexivity|apply Hhit; reflexivity].
Defined.

End UploadRuns.

(** *** Downloads *)

Section Download.
Import Sftp Scripted.

Lemma deliver_data (chunks : list Buffer) (rest : list StreamEvent) (d : Download) :
  outer d = None ->
  deliverUntilSettled (map StreamData chunks ++ rest) d
  = deliverUntilSettled rest
      {| outer := outer d; inner := inner d;
         tmpFile := (fun b => b ++ concat chunks) <$> tmpFile d;
         onStreamError := onStreamError d; onPipeError := onPipeError d;
         onEnd := onEnd d |}.
Proof.
  revert d. induction chunks as [|chunk chunks IH];
    intros [o i t se pe en] Hd; cbn in Hd; subst o.
  - cbn [map app concat]. destruct t as [b|]; cbn; by rewrite ?app_nil_r.
  - cbn [map app deliverUntilSettled outer onEvent]. rewrite IH by done.
    destruct t as [b|]; cbn; [|done]. by rewrite <- app_assoc.
Qed.

Lemma deliverAll_data (chunks : list Buffer) (rest : list StreamEvent) (d : Download) :
  deliver (map StreamData chunks ++ rest) d
  = deliver rest
      {| outer := outer d; inner := inner d;
         tmpFile := (fun b => b ++ concat chunks) <$> tmpFile d;
         onStreamError := onStreamError d; onPipeError := onPipeError d;
         onEnd := onEnd d |}.
Proof.
  unfold deliver. revert d. induction chunks as [|chunk chunks IH];
    intros [o i t se pe en].
  - cbn [map app concat]. destruct t as [b|]; cbn; by rewrite ?app_nil_r.
  - cbn [map app fold_left onEvent]. rewrite IH.
    destruct t as [b|]; cbn; [|done]. by rewrite <- app_assoc.
Qed.

(** The staging of a stream that ends: the bytes of the chunks are read
    back and the temporary file is gone when [downloadFile] settles. *)
Lemma staging_success (chunks : list Buffer) :
  let d := deliverUntilSettled (map StreamData chunks ++ [StreamEnd None])
             startDownload in
  outer d = Some (inr (concat chunks)) ∧ tmpFile d = None.
Proof. cbv zeta. by rewrite deliver_data. Qed.

(** An error of the write stream or of the read-back goes through [COMP]:
    the temporary file is removed before [downloadFile] is rejected. *)
Lemma staging_pipe_or_read_error (chunks : list Buffer) (e : Err) :
  let piped := deliverUntilSettled (map StreamData chunks ++ [PipeError e])
                 startDownload in
  let read := deliverUntilSettled (map StreamData chunks ++ [StreamEnd (Some e)])
                startDownload in
  (outer piped = Some (inl e) ∧ tmpFile piped = None)
  ∧ (outer read = Some (inl e) ∧ tmpFile read = None).
Proof. cbv zeta. by rewrite !deliver_data. Qed.

(** The stream-error path: [COMPLETED] is reached, [COMP] is not. *)
Lemma staging_stream_error (chunks : list Buffer) (e : Err) (rest : list StreamEvent) :
  deliverUntilSettled (map StreamData chunks ++ StreamError e :: rest) startDownload
  = {| outer := Some (inl e); inner := None; tmpFile := Some (concat chunks);
       onStreamError := false; onPipeError := true; onEnd := true |}.
Proof. rewrite deliver_data by done. cbn. by destruct rest. Qed.

Lemma staging_stream_error_later (chunks later : list Buffer) (e : Err) :
  deliver (map StreamData chunks ++ StreamError e :: map StreamData later) startDownload
  = {| outer := Some (inl e); inner := None;
       tmpFile := Some (concat chunks ++ concat later);
       onStreamError := false; onPipeError := true; onEnd := true |}.
Proof.
  rewrite deliverAll_data.
  change (deliver (?ev :: ?l) ?d) with (deliver l (onEvent d ev)).
  rewrite <- (app_nil_r (map StreamData later)), deliverAll_data. by cbn.
Qed.

(** On any transport: a stream that breaks rejects [downloadFile] and
    leaves the temporary file of the call on disk; a stream that ends
    resolves it with the bytes and leaves no temporary file. *)
Lemma downloadFile_stream_error {R} (T : Transport R) (c : SFTPClient)
    (path : string) (w : World (R:=R)) (chunks : list Buffer) (e : Err)
    (rest : list StreamEvent) (r : R) :
  sftp_get T (toSFTPPath path) (remote w)
  = (inr (map StreamData chunks ++ StreamError e :: rest), r) ->
  (downloadFile T c path w).1.1 = Throw e
  ∧ tmpFiles (downloadFile T c path w).1.2 !! nextTmp w = Some (concat chunks).
Proof.
  intros Hget. unfold downloadFile. rewrite Hget, staging_stream_error.
  cbn -[lookup insert delete]. by rewrite lookup_insert_eq.
Qed.

Lemma downloadFile_stream_end {R} (T : Transport R) (c : SFTPClient)
    (path : string) (w : World (R:=R)) (chunks : list Buffer) (r : R) :
  sftp_get T (toSFTPPath path) (remote w)
  = (inr (map StreamData chunks ++ [StreamEnd None]), r) ->
  (downloadFile T c path w).1.1 = Ok (concat chunks)
  ∧ tmpFiles (downloadFile T c path w).1.2 !! nextTmp w = None.
Proof.
  intros Hget. unfold downloadFile. rewrite Hget, deliver_data by done.
  cbn -[lookup insert delete]. by rewrite lookup_delete_eq.
Qed.

(** C5 on the stream-error path: the error of the remote stream goes to
    [COMPLETED] and not to [COMP]; [downloadFile] is rejected while the
    staging body never settles, so the temporary file with the bytes
    received so far is still on disk when the call has returned, and no
    later chunk removes it. *)
Theorem downloadFile_stream_error_keeps_temp_file (chunks later : list Buffer) (e : Err) :
  let events := map StreamData chunks ++ StreamError e :: map StreamData later in
  let run := downloadFile (transport (withStream events))
               (client0 noOptions) "a/b.bin" world0 in
  run.1.1 = Throw e
  ∧ tmpFiles run.1.2 !! 0%nat = Some (concat chunks)
  ∧ inner (deliver events startDownload) = None
  ∧ tmpFile (deliver events startDownload) = Some (concat chunks ++ concat later).
Proof.
  cbv zeta. unfold downloadFile. cbn [transport sftp_get withStream stream].
  rewrite staging_stream_error. cbn -[lookup insert delete].
  rewrite lookup_insert_eq, staging_stream_error_later. done.
Qed.

(** The success path of a download: the bytes of the remote file are returned and
    no temporary file is left. *)
Lemma downloadFile_returns_the_bytes (chunks : list Buffer) :
  let run := downloadFile (transport (withStream (map StreamData chunks ++ [StreamEnd None])))
               (client0 noOptions) "a/b.bin" world0 in
  run.1.1 = Ok (concat chunks) ∧ tmpFiles run.1.2 !! 0%nat = None.
Proof.
  cbv zeta. unfold downloadFile. cbn [transport sftp_get withStream stream].
  rewrite deliver_data by done. cbn -[lookup insert delete].
  by rewrite lookup_delete_eq.
Qed.

End Download.

(** *** Listings *)

Section Listing.
Import Sftp Props.
Context {R : Type} (T : Transport R).

Lemma list_of_append (a b : string) :
  list_ascii_of_string (a +:+ b) = list_ascii_of_string a ++ list_ascii_of_string b.
Proof. induction a as [|c a IH]; [done|]. cbn. by rewrite <- IH. Qed.

Lemma components_cat (l1 l2 acc : list ascii) :
  Helpers.components acc (l1 ++ "/"%char :: l2)
  = Helpers.components acc l1 ++ Helpers.components [] l2.
Proof.
  revert acc. induction l1 as [|c l1 IH]; intros acc.
  - cbn [app Helpers.components]. change (Helpers.isSep "/") with true.
    by destruct acc.
  - cbn [app Helpers.components]. destruct (Helpers.isSep c); [|apply IH].
    destruct acc; by rewrite IH.
Qed.

Lemma components_normalized (n : string) :
  Helpers.components [] (list_ascii_of_string (Helpers.normalizePath n))
  = Helpers.components [] (list_ascii_of_string n).
Proof.
  unfold Helpers.normalizePath. rewrite list_ascii_of_string_of_list_ascii.
  apply components_join, components_good. constructor.
Qed.

(** Converting the name of an entry before the path is put together does
    not change the remote path that is read. *)
Lemma toSFTPPath_entry (parent name : string) :
  toSFTPPath (parent +:+ "/" +:+ Helpers.normalizePath name)
  = toSFTPPath (parent +:+ "/" +:+ name).
Proof.
  unfold toSFTPPath. f_equal. unfold Helpers.normalizePath at 1 3. f_equal. f_equal.
  rewrite !list_of_append.
  change (list_ascii_of_string "/") with ["/"%char]. cbn [app].
  by rewrite !components_cat, components_normalized.
Qed.

Lemma downloadFile_same_path (c : SFTPClient) (a b : string) (w : World (R:=R)) :
  toSFTPPath a = toSFTPPath b -> downloadFile T c a w = downloadFile T c b w.
Proof. unfold downloadFile. by intros ->. Qed.

Lemma listing_loop (ME : SFTPClient) (p : string) (LIST : list RawEntry)
    (RESULT : list FileSystemInfo) :
  fold_left (fun RESULT FI => RESULT ++ [toInfo T ME p FI]) LIST RESULT
  = RESULT ++ map (toInfo T ME p) LIST.
Proof.
  revert RESULT. induction LIST as [|FI LIST IH]; intros RESULT; cbn [fold_left map].
  - by rewrite app_nil_r.
  - rewrite IH. by rewrite <- app_assoc.
Qed.

Lemma toInfo_shape (ME : SFTPClient) (p : string) (FI : RawEntry) :
  shapeOf (toInfo T ME p FI) = Some (shapeOfType (raw_type FI)).
Proof.
  unfold toInfo, shapeOfType, shapeOf.
  destruct (String.eqb "d" (raw_type FI)); [done|].
  by destruct (String.eqb "-" (raw_type FI)).
Qed.

(** C8: [listDirectory] turns every raw entry of the transport into one
    entry, in order; the shape of the entry depends on the type code
    alone: ['d'] gives a directory, ['-'] a file with a [download], any
    other code an entry without type and without [download]. *)
Theorem listDirectory_one_shape_per_entry (ME : SFTPClient) (path : string)
    (w : World (R:=R)) (LIST : list RawEntry) (r : R) :
  sftp_list T (toSFTPPath path) (remote w) = (inr LIST, r) ->
  ∃ RESULT,
    (listDirectory T ME path w).1.1 = Ok RESULT
    ∧ RESULT = map (toInfo T ME (toSFTPPath path)) LIST
    ∧ map fs_name RESULT = map raw_name LIST
    ∧ map shapeOf RESULT = map (fun FI => Some (shapeOfType (raw_type FI))) LIST
    ∧ shapeOfType "d" = DirectoryShape
    ∧ shapeOfType "-" = FileShape
    ∧ (∀ t, t ≠ "d" -> t ≠ "-" -> shapeOfType t = OtherShape)
    ∧ (∀ FI, FI ∈ LIST -> raw_type FI = "-" ->
         fs_download (toInfo T ME (toSFTPPath path) FI)
         = Some (download T ME (toSFTPPath path) FI)).
Proof.
  intros Hlist. exists (map (toInfo T ME (toSFTPPath path)) LIST).
  split; [|split; [done|split; [|split; [|split; [done|split; [done|split]]]]]].
  - unfold listDirectory, bind, list_, ret. rewrite Hlist. cbn [fst snd].
    by rewrite listing_loop.
  - rewrite map_map. apply map_ext. intros FI. unfold toInfo.
    destruct (String.eqb "d" (raw_type FI)); [done|].
    by destruct (String.eqb "-" (raw_type FI)).
  - rewrite map_map. apply map_ext. intros FI. apply toInfo_shape.
  - intros t Hd Hf. unfold shapeOfType.
    destruct (String.eqb_spec "d" t); [done|].
    by destruct (String.eqb_spec "-" t).
  - intros FI _ Ht. unfold toInfo. by rewrite Ht.
Qed.

Lemma openConnection_client (opts : SFTPConnectionOptions) (w : World (R:=R))
    CLIENT w1 evs :
  openConnection T opts w = (Ok CLIENT, w1, evs) ->
  options CLIENT = opts ∧ client CLIENT = nextClient w.
Proof.
  unfold openConnection, bind, createClient, connect, call, ret.
  cbn -[hostVerifier insert]. destruct (hostVerifier _ _); [|done].
  destruct (sftp_connect T _ (remote w)) as [[e|] r]; [done|].
  cbn -[hostVerifier insert]. by intros [= <- <- <-].
Qed.

(** C6: the [download] of a listed file opens a session of its own with
    the options of the listing client, reads the file at the path of the
    entry followed by ['/'] and its name, and closes that session whether
    the download resolved or was rejected; a failure to close is logged
    and the outcome of the download is the outcome of the call. A failure
    to open is the outcome as well. *)
Theorem listed_file_download_own_session (ME : SFTPClient) (path : string)
    (FI : RawEntry) (w : World (R:=R)) :
  let entry := toInfo T ME (toSFTPPath path) FI in
  let target := fs_path entry +:+ "/" +:+ fs_name entry in
  raw_type FI = "-" ->
  client ME < nextClient w ->
  ∃ dl,
    fs_download entry = Some dl
    ∧ (∀ e w1 evsOpen,
         openConnection T (options ME) w = (Throw e, w1, evsOpen) ->
         dl w = (Throw e, w1, evsOpen))
    ∧ (∀ CLIENT w1 evsOpen res w2 evsGet,
         openConnection T (options ME) w = (Ok CLIENT, w1, evsOpen) ->
         downloadFile T CLIENT target w1 = (res, w2, evsGet) ->
         res ≠ Pending ->
         options CLIENT = options ME
         ∧ client CLIENT ≠ client ME
         ∧ (∃ ok, evsGet = [Get (client CLIENT) (toSFTPPath target) ok])
         ∧ ∃ closeError w',
             dl w = (res, w',
                     evsOpen ++ evsGet ++
                     End_ (client CLIENT) closeError ::
                     match closeError with
                     | Some e =>
                         [Log trace (OfError e)
                            "clients.sftp.SFTPClient.listDirectory().FI.download()"]
                     | None => []
                     end)).
Proof.
  intros entry target Hfile Hold.
  exists (download T ME (toSFTPPath path) FI).
  split; [unfold entry, toInfo; by rewrite Hfile|]. split.
  - intros e w1 evsOpen Hopen. unfold download, bind. by rewrite Hopen.
  - intros CLIENT w1 evsOpen res w2 evsGet Hopen Hget Hres.
    destruct (openConnection_client _ _ _ _ _ Hopen) as [Hopts Hnew].
    assert (Htarget : target = Helpers.normalizePath (toSFTPPath path)
                               +:+ "/" +:+ raw_name FI).
    { unfold target, entry, toInfo. rewrite Hfile. done. }
    split; [done|]. split; [lia|]. split.
    { unfold downloadFile in Hget.
      destruct (sftp_get T _ (remote w1)) as [[e|l] r];
        injection Hget as <- <- <-; by eauto. }
    unfold download, bind. rewrite Hopen.
    unfold tryFinally.
    rewrite (downloadFile_same_path CLIENT _ target) by
      (rewrite Htarget; apply toSFTPPath_entry).
    rewrite Hget. unfold tryCatch, end_, call, log, emit.
    destruct (sftp_end T (remote w2)) as [[e|] r3]; destruct res; try done;
      [exists (Some e)|exists (Some e)|exists None|exists None];
      eexists; reflexivity.
Qed.

End Listing.

Section ListingRuns.
Import Sftp Props Scripted.

Lemma listDirectory_one_shape_per_entry_witness :
  ∃ RESULT,
    (listDirectory (transport threeEntries) (client0 noOptions) "srv" world0).1.1
    = Ok RESULT
    ∧ map fs_name RESULT = ["sub"; "a.txt"; "link"]
    ∧ map shapeOf RESULT
      = [Some DirectoryShape; Some FileShape; Some OtherShape].
Proof.
  destruct (listDirectory_one_shape_per_entry (transport threeEntries)
              (client0 noOptions) "srv" world0 _ tt eq_refl)
    as (RESULT & Hres & _ & Hnames & Hshapes & _).
  exists RESULT. split; [exact Hres|]. split; [exact Hnames|exact Hshapes].
Defined.

Lemma listed_file_download_own_session_witness :
  let ME := client0 noOptions in
  let FI := {| raw_name := "a.txt"; raw_type := "-"; raw_size := 3;
               raw_modifyTime := 2 |} in
  let T := transport brokenStreamAndClose in
  ∃ dl,
    fs_download (toInfo T ME "/srv" FI) = Some dl
    ∧ ∃ closeError w',
        dl world0
        = (Throw (Error "boom"), w',
           [Connect 1 (connectConfig noOptions) None] ++
           [Get 1 "/srv/a.txt" true] ++
           End_ 1 closeError ::
           match closeError with
           | Some e =>
               [Log trace (OfError e)
                  "clients.sftp.SFTPClient.listDirectory().FI.download()"]
           | None => []
           end).
Proof.
  intros ME FI T.
  destruct (listed_file_download_own_session T ME "srv" FI world0)
    as (dl & Hdl & _ & Hrun).
  - reflexivity.
  - cbn. lia.
  - exists dl. split; [exact Hdl|].
    pose (opened := openConnection T (options ME) world0).
    pose (CLIENT := {| options := noOptions; client := 1 |}).
    pose (got := downloadFile T CLIENT "srv/a.txt" opened.1.2).
    destruct (Hrun CLIENT opened.1.2 opened.2 got.1.1 got.1.2 got.2)
      as (_ & _ & _ & closeError & w' & Hcall).
    + reflexivity.
    + apply run_eta.
    + discriminate.
    + exists closeError, w'. exact Hcall.
Defined.

End ListingRuns.

(** *** More on uploads *)

Section UploadMore.
Import Sftp Props.
Context {R : Type} (T : Transport R).
Variable doesMatch : string -> string -> bool.
Variable dirname : string -> string.

Lemma findMode_without_modes (c : SFTPClient) (p : string) (w : World (R:=R)) :
  modes (options c) = None -> findMode doesMatch c p w = (Ok None, w, []).
Proof. intros Hm. unfold findMode, fileModesOf. by rewrite Hm. Qed.

Lemma findMode_no_match (c : SFTPClient) (p : string) (w : World (R:=R)) :
  modes (options c) ≠ None ->
  modeToSet doesMatch (options c) p = None ->
  findMode doesMatch c p w
  = (Ok None, w,
     [Log notice (Text ("'" +:+ p +:+ "' does NOT match with a mode pattern"))
        "clients.sftp.uploadFile(3)"]).
Proof.
  intros Hm Hnone. unfold findMode. unfold modeToSet in Hnone.
  destruct (fileModesOf (options c)) as [fm|] eqn:Hfm.
  - cbn [mbind option_bind] in Hnone.
    destruct (matchMode doesMatch fm p (JS.forInKeys fm)) as [[P mode]|]; [done|].
    reflexivity.
  - unfold fileModesOf in Hfm. destruct (modes (options c)) as [[m|o]|]; done.
Qed.

(** The runs of [uploadFile], with the outcome of the mode search. *)
Lemma uploadFile_run_full (c : SFTPClient) (path : string) (data : Buffer)
    (w : World (R:=R)) res w' evs :
  uploadFile T doesMatch dirname c path data w = (res, w', evs) ->
  let dir := toSFTPPath (dirname path) in
  let p := toSFTPPath path in
  let h := client c in
  ∃ rdir w1 evsDir logs rest,
    checkRemoteDir T c dir w = (rdir, w1, evsDir)
    ∧ checkedRemoteDirs w' = checkedRemoteDirs w1
    ∧ evs = evsDir ++ logs ++ rest
    ∧ ((∃ e, rdir = Throw e ∧ res = Throw e ∧ logs = [] ∧ rest = [])
       ∨ (rdir = Ok tt
          ∧ findMode doesMatch c p w1
            = (Ok (modeToSet doesMatch (options c) p), w1, logs)
          ∧ ((∃ e, rest = [Put h data p (Some e)] ∧ res = Throw e)
             ∨ (modeToSet doesMatch (options c) p = None
                ∧ rest = [Put h data p None] ∧ res = Ok tt)
             ∨ (∃ mode text, modeToSet doesMatch (options c) p = Some mode
                  ∧ rest = [Put h data p None; Log info text "clients.sftp.uploadFile(1)";
                            Chmod h p mode None]
                  ∧ res = Ok tt)
             ∨ (∃ mode text e, modeToSet doesMatch (options c) p = Some mode
                  ∧ rest = [Put h data p None; Log info text "clients.sftp.uploadFile(1)";
                            Chmod h p mode (Some e);
                            Log trace (OfError e) "clients.sftp.uploadFile(2)"]
                  ∧ res = Throw e)))).
Proof.
  pose (tidy := λ (l m n : list Event), eq_sym (app_assoc l m n)).
  intros Hrun dir p h. fold dir p in Hrun.
  unfold uploadFile, promise, tryCatch in Hrun. unfold bind at 1 in Hrun.
  fold dir p in Hrun.
  destruct (checkRemoteDir T c dir w) as [[rdir w1] evsDir] eqn:Hdir.
  destruct (checkRemoteDir_run _ _ _ _ _ _ _ Hdir) as
    [(_ & -> & _ & _)|(_ & [(-> & _ & _)|(e & -> & _ & _)])].
  3: { cbn in Hrun. injection Hrun as <- <- <-.
       exists (Throw e), w1, evsDir, [], []. rewrite !app_nil_r.
       repeat split. left. by eauto. }
  all: unfold bind at 1 in Hrun.
  all: destruct (findMode_run doesMatch c p w1) as (logs & Hfm & _).
  all: cbn [fst snd] in Hrun; rewrite Hfm in Hrun.
  all: exists (Ok tt), w1, evsDir, logs.
  all: unfold bind, call, chmod, log, emit, ret in Hrun.
  all: destruct (sftp_put T data p (remote w1)) as [[ep|] r2]; cbn in Hrun;
         rewrite ?app_nil_r, ?tidy in Hrun; cbn [app] in Hrun.
  all: try (injection Hrun as <- <- <-; eexists; repeat split;
            right; split; [done|]; split; [done|]; left; by eauto).
  all: destruct (modeToSet doesMatch (options c) p) as [mode|] eqn:Hmode;
         cbn in Hrun; rewrite ?app_nil_r, ?tidy in Hrun; cbn [app] in Hrun.
  all: try (injection Hrun as <- <- <-; eexists; repeat split;
            right; split; [done|]; split; [done|]; right; left; by eauto).
  all: destruct (sftp_chmod T p mode r2) as [[ec|] r3]; cbn in Hrun;
         rewrite ?app_nil_r, ?tidy in Hrun; cbn [app] in Hrun.
  all: injection Hrun as <- <- <-; eexists; repeat split;
         right; split; [done|]; split; [done|]; right; right;
         first [left; by eauto 8 | right; by eauto 8].
Qed.

Lemma checkRemoteDir_steps (c : SFTPClient) (dir : string) (w : World (R:=R))
    r w1 evs (p : string) (data : Buffer) (mode : option JS.Num) :
  checkRemoteDir T c dir w = (r, w1, evs) ->
  Forall (uploadStep (client c) dir p data mode) evs
  ∧ List.filter isPut evs = [] ∧ List.filter isChmod evs = []
  ∧ List.filter isLog evs = [].
Proof.
  intros Hrun.
  destruct (checkRemoteDir_run _ _ _ _ _ _ _ Hrun) as
    [(_ & _ & _ & ->)|(_ & [(_ & [->| ->] & _)|(e & _ & -> & _)])];
    repeat split; repeat constructor.
Qed.

Lemma findMode_steps (c : SFTPClient) (p : string) (w w1 : World (R:=R)) r logs
    (h : nat) (dir q : string) (data : Buffer) (mode : option JS.Num) :
  findMode doesMatch c p w = (r, w1, logs) ->
  Forall (uploadStep h dir q data mode) logs
  ∧ List.filter isPut logs = [] ∧ List.filter isChmod logs = [].
Proof.
  intros Hrun. destruct (findMode_run doesMatch c p w) as (logs' & Hfm & Hlogs).
  rewrite Hfm in Hrun. injection Hrun as <- <- <-.
  assert (Hall : Forall (fun ev => ∃ m, ev = Log notice m "clients.sftp.uploadFile(3)") logs')
    by by apply Forall_forall.
  clear Hlogs Hfm. induction Hall as [|ev logs' [m ->] _ IH]; [done|].
  destruct IH as (IH1 & IH2 & IH3). cbn. repeat split; [by constructor|done|done].
Qed.

(** X2: whatever the transport answers, [uploadFile] settles: every path
    through it reaches [COMPLETED]. *)
Theorem uploadFile_always_settles (c : SFTPClient) (path : string) (data : Buffer)
    (w : World (R:=R)) :
  (uploadFile T doesMatch dirname c path data w).1.1 ≠ Pending.
Proof.
  destruct (uploadFile_run_full c path data w _ _ _ (run_eta _)) as
    (rdir & w1 & evsDir & logs & rest & _ & _ & _ & Hcases).
  destruct Hcases as [(e & _ & -> & _)|(_ & _ & [(e & _ & ->)|[(_ & _ & ->)|
    [(mode & text & _ & _ & ->)|(mode & text & e & _ & _ & ->)]]])]; done.
Qed.

(** X3: every call of an upload is made by its client on the target path or
    on its parent directory, the [chmod] with the mode found; nothing is
    read, deleted, connected or closed; the file is written at most once
    and its mode is set at most once. *)
Theorem uploadFile_touches_only_target (c : SFTPClient) (path : string)
    (data : Buffer) (w : World (R:=R)) res w' evs :
  uploadFile T doesMatch dirname c path data w = (res, w', evs) ->
  Forall (uploadStep (client c) (toSFTPPath (dirname path)) (toSFTPPath path) data
            (modeToSet doesMatch (options c) (toSFTPPath path))) evs
  ∧ (List.length (List.filter isPut evs) ≤ 1)%nat
  ∧ (List.length (List.filter isChmod evs) ≤ 1)%nat.
Proof.
  intros Hrun.
  destruct (uploadFile_run_full _ _ _ _ _ _ _ Hrun) as
    (rdir & w1 & evsDir & logs & rest & Hdir & _ & -> & Hcases).
  destruct (checkRemoteDir_steps _ _ _ _ _ _ (toSFTPPath path) data
              (modeToSet doesMatch (options c) (toSFTPPath path)) Hdir)
    as (Hd1 & Hd2 & Hd3 & _).
  rewrite !List.filter_app, !length_app, Hd2, Hd3. cbn [length].
  destruct Hcases as [(e & _ & _ & -> & ->)|(_ & Hfm & Hrest)].
  { rewrite !app_nil_r. split; [done|]. cbn. lia. }
  destruct (findMode_steps _ _ _ _ _ _ (client c) (toSFTPPath (dirname path))
              (toSFTPPath path) data
              (modeToSet doesMatch (options c) (toSFTPPath path)) Hfm)
    as (Hl1 & Hl2 & Hl3).
  rewrite Hl2, Hl3. cbn [length].
  destruct Hrest as [(e & -> & _)|[(_ & -> & _)|
    [(mode & text & Hmode & -> & _)|(mode & text & e & Hmode & -> & _)]]];
    (split; [|cbn; lia]); rewrite !Forall_app; (split; [done|]);
    (split; [done|]); repeat constructor; done.
Qed.

(** X4: without [modes] in the options an upload never calls [chmod] and logs
    nothing; it resolves exactly when the file was written. *)
Theorem uploadFile_without_modes (c : SFTPClient) (path : string)
    (data : Buffer) (w : World (R:=R)) res w' evs :
  modes (options c) = None ->
  uploadFile T doesMatch dirname c path data w = (res, w', evs) ->
  List.filter isChmod evs = [] ∧ List.filter isLog evs = []
  ∧ (res = Ok tt ↔ Put (client c) data (toSFTPPath path) None ∈ evs).
Proof.
  intros Hm Hrun.
  destruct (uploadFile_run_full _ _ _ _ _ _ _ Hrun) as
    (rdir & w1 & evsDir & logs & rest & Hdir & _ & -> & Hcases).
  destruct (checkRemoteDir_steps _ _ _ _ _ _ (toSFTPPath path) data None Hdir)
    as (_ & _ & Hd3 & Hd4).
  assert (Hnoput : ∀ err, Put (client c) data (toSFTPPath path) err ∉ evsDir).
  { intros err Hin.
    destruct (checkRemoteDir_run _ _ _ _ _ _ _ Hdir) as
      [(_ & _ & _ & ->)|(_ & [(_ & [->| ->] & _)|(e & _ & -> & _)])];
      rewrite ?elem_of_cons, ?elem_of_nil in Hin; destruct_or?; done. }
  rewrite !List.filter_app, Hd3, Hd4.
  assert (Hmode : modeToSet doesMatch (options c) (toSFTPPath path) = None).
  { unfold modeToSet, fileModesOf. by rewrite Hm. }
  destruct Hcases as [(e & _ & -> & -> & ->)|(_ & Hfm & Hrest)].
  { rewrite !app_nil_r. repeat split; [done|].
    intros Hin. by apply Hnoput in Hin. }
  rewrite findMode_without_modes in Hfm by done. injection Hfm as _ <-.
  cbn [app]. rewrite Hmode in Hrest.
  destruct Hrest as [(e & -> & ->)|[(_ & -> & ->)|
    [(mode & text & ? & _)|(mode & text & e & ? & _)]]]; [| |done|done].
  - repeat split; [done|]. rewrite elem_of_app, list_elem_of_singleton.
    intros [Hin|?]; [by apply Hnoput in Hin|done].
  - repeat split. intros _. rewrite elem_of_app, list_elem_of_singleton. by right.
Qed.

(** X5: with [modes] of which no pattern matches, an upload says so in the
    log before it writes the file, and never calls [chmod]. *)
Theorem uploadFile_no_match_notice (c : SFTPClient) (path : string)
    (data : Buffer) (w : World (R:=R)) res w' evs :
  modes (options c) ≠ None ->
  modeToSet doesMatch (options c) (toSFTPPath path) = None ->
  uploadFile T doesMatch dirname c path data w = (res, w', evs) ->
  List.filter isChmod evs = []
  ∧ ∀ err, Put (client c) data (toSFTPPath path) err ∈ evs ->
      ∃ before after,
        evs = before ++
              Log notice (Text ("'" +:+ toSFTPPath path
                                +:+ "' does NOT match with a mode pattern"))
                "clients.sftp.uploadFile(3)" ::
              Put (client c) data (toSFTPPath path) err :: after.
Proof.
  intros Hm Hmode Hrun.
  destruct (uploadFile_run_full _ _ _ _ _ _ _ Hrun) as
    (rdir & w1 & evsDir & logs & rest & Hdir & _ & -> & Hcases).
  destruct (checkRemoteDir_steps _ _ _ _ _ _ (toSFTPPath path) data None Hdir)
    as (_ & _ & Hd3 & _).
  assert (Hnoput : ∀ err, Put (client c) data (toSFTPPath path) err ∉ evsDir).
  { intros err Hin.
    destruct (checkRemoteDir_run _ _ _ _ _ _ _ Hdir) as
      [(_ & _ & _ & ->)|(_ & [(_ & [->| ->] & _)|(e & _ & -> & _)])];
      rewrite ?elem_of_cons, ?elem_of_nil in Hin; destruct_or?; done. }
  rewrite !List.filter_app, Hd3.
  destruct Hcases as [(e & _ & -> & -> & ->)|(_ & Hfm & Hrest)].
  { rewrite !app_nil_r. split; [done|]. intros err Hin. by apply Hnoput in Hin. }
  rewrite findMode_no_match in Hfm by done. injection Hfm as _ <-.
  rewrite Hmode in Hrest.
  destruct Hrest as [(e & -> & ->)|[(_ & -> & ->)|
    [(mode & text & ? & _)|(mode & text & e & ? & _)]]]; [| |done|done];
    (split; [done|]); intros err Hin;
    rewrite !elem_of_app, !elem_of_cons, !elem_of_nil in Hin;
    destruct Hin as [Hin|[[?|[]]|[?|[]]]]; try done;
    try (by apply Hnoput in Hin); simplify_eq; by exists evsDir, [].
Qed.

(** X6: when the parent directory is neither marked nor listable and cannot be
    created, the upload is rejected with the error of [mkdir]: nothing is
    written and the directory stays unmarked. *)
Theorem uploadFile_mkdir_failure (c : SFTPClient) (path : string)
    (data : Buffer) (w : World (R:=R)) e1 r1 e r2 :
  let dir := toSFTPPath (dirname path) in
  checked c dir w ≠ Some true ->
  sftp_list T dir (remote w) = (inl e1, r1) ->
  sftp_mkdir T dir true r1 = (Some e, r2) ->
  uploadFile T doesMatch dirname c path data w
  = (Throw e, setRemote r2 w,
     [List (client c) dir false; Mkdir (client c) dir true (Some e)]).
Proof.
  intros dir Hmiss Hlist Hmkdir.
  unfold uploadFile, promise, tryCatch. unfold bind at 1. fold dir.
  unfold checkRemoteDir.
  destruct (checked c dir w) as [[|]|]; [done| |];
    unfold bind, tryCatch, list_, call, ret; rewrite Hlist; cbn;
    rewrite Hmkdir; reflexivity.
Qed.

(** An upload that got as far as writing the file has marked the parent
    directory, whatever became of the write. *)
Lemma uploadFile_attempt_marks (c : SFTPClient) (path : string)
    (data : Buffer) (w : World (R:=R)) res w' evs err :
  uploadFile T doesMatch dirname c path data w = (res, w', evs) ->
  Put (client c) data (toSFTPPath path) err ∈ evs ->
  checked c (toSFTPPath (dirname path)) w' = Some true.
Proof.
  intros Hrun Hin.
  destruct (uploadFile_run_full _ _ _ _ _ _ _ Hrun) as
    (rdir & w1 & evsDir & logs & rest & Hdir & Hsame & -> & Hcases).
  rewrite (checked_ext c _ _ _ Hsame).
  destruct (checkRemoteDir_run _ _ _ _ _ _ _ Hdir) as
    [(Hhit & _ & -> & _)|(_ & [(_ & _ & Hmark)|(e & -> & -> & _)])].
  - done.
  - rewrite Hmark. by rewrite bool_decide_eq_true_2.
  - destruct Hcases as [(e0 & _ & _ & -> & ->)|(? & _)]; [|done].
    rewrite !app_nil_r, !elem_of_cons, elem_of_nil in Hin. destruct_or?; done.
Qed.

(** X7: when the write fails, the upload is rejected with its error and no
    [chmod] follows; the parent directory is marked all the same, so the
    next upload into it skips the check. *)
Theorem uploadFile_put_failure (c : SFTPClient) (path : string)
    (data : Buffer) (w : World (R:=R)) res w' evs e :
  uploadFile T doesMatch dirname c path data w = (res, w', evs) ->
  Put (client c) data (toSFTPPath path) (Some e) ∈ evs ->
  res = Throw e
  ∧ List.filter isChmod evs = []
  ∧ checked c (toSFTPPath (dirname path)) w' = Some true.
Proof.
  intros Hrun Hin. split; [|split; [|by eapply uploadFile_attempt_marks]].
  all: destruct (uploadFile_run_full _ _ _ _ _ _ _ Hrun) as
    (rdir & w1 & evsDir & logs & rest & Hdir & _ & -> & Hcases).
  all: destruct (checkRemoteDir_steps _ _ _ _ _ _ (toSFTPPath path) data None Hdir)
    as (Hd1 & _ & Hd3 & _).
  all: assert (Hnoput : ∀ err, Put (client c) data (toSFTPPath path) err ∉ evsDir)
    by (intros err Hin'; rewrite Forall_forall in Hd1;
        destruct (checkRemoteDir_run _ _ _ _ _ _ _ Hdir) as
          [(_ & _ & _ & ->)|(_ & [(_ & [->| ->] & _)|(e' & _ & -> & _)])];
        rewrite ?elem_of_cons, ?elem_of_nil in Hin'; destruct_or?; done).
  all: destruct Hcases as [(e0 & _ & _ & -> & ->)|(_ & Hfm & Hrest)];
    [rewrite !app_nil_r in Hin; by apply Hnoput in Hin|].
  all: destruct (findMode_steps _ _ _ _ _ _ (client c) "" "" data None Hfm)
    as (_ & _ & Hl3).
  all: assert (Hnolog : Put (client c) data (toSFTPPath path) (Some e) ∉ logs)
    by (intros Hin'; destruct (findMode_run doesMatch c (toSFTPPath path) w1)
          as (logs' & Hfm' & Hlogs); rewrite Hfm' in Hfm;
        injection Hfm as <-; apply Hlogs in Hin' as [m ?]; done).
  all: rewrite !elem_of_app in Hin; destruct Hin as [Hin|[Hin|Hin]];
    [by apply Hnoput in Hin|done|].
  all: destruct Hrest as [(e0 & -> & ->)|[(_ & -> & _)|
    [(mode & text & _ & -> & _)|(mode & text & e0 & _ & -> & _)]]];
    rewrite ?elem_of_cons, ?elem_of_nil in Hin; destruct_or?; simplify_eq.
  - done.
  - rewrite !List.filter_app, Hd3, Hl3. done.
Qed.

(** X8: after an upload that got as far as writing a file, whatever the
    outcome, an upload into the same parent directory issues no call that
    checks or creates a directory. *)
Theorem uploadFile_sibling_skips_check (c : SFTPClient) (path1 path2 : string)
    (data1 data2 : Buffer) (w : World (R:=R)) res1 w1 evs1 err res2 w2 evs2 :
  uploadFile T doesMatch dirname c path1 data1 w = (res1, w1, evs1) ->
  Put (client c) data1 (toSFTPPath path1) err ∈ evs1 ->
  toSFTPPath (dirname path2) = toSFTPPath (dirname path1) ->
  uploadFile T doesMatch dirname c path2 data2 w1 = (res2, w2, evs2) ->
  ∀ ev, ev ∈ evs2 -> dirEvent ev = false.
Proof.
  intros Hfirst Hput Hsame Hsecond.
  pose proof (uploadFile_attempt_marks _ _ _ _ _ _ _ _ Hfirst Hput) as Hmarked.
  rewrite <- Hsame in Hmarked.
  by destruct (uploadFile_cache_hit T doesMatch dirname _ _ _ _ _ _ _ Hmarked Hsecond).
Qed.

Lemma checkRemoteDir_cache (c : SFTPClient) (dir : string) (w : World (R:=R))
    r w1 evs :
  checkRemoteDir T c dir w = (r, w1, evs) ->
  checkedRemoteDirs w1 = checkedRemoteDirs w
  ∨ checkedRemoteDirs w1
    = <[client c := <[dir := true]> (default ∅ (checkedRemoteDirs w !! client c))]>
        (checkedRemoteDirs w).
Proof.
  unfold checkRemoteDir.
  destruct (checked c dir w) as [[|]|] eqn:Hc.
  1: { unfold ret. intros [= <- <- <-]. by left. }
  all: intros Hrun.
  all: unfold bind, tryCatch, list_, call, ret in Hrun.
  all: unfold markChecked in Hrun.
  all: destruct (sftp_list T dir (remote w)) as [[e|l] r1]; cbn in Hrun.
  all: try (destruct (sftp_mkdir T dir true r1) as [[e'|] r2]; cbn in Hrun).
  all: injection Hrun as <- <- <-; cbn; by eauto.
Qed.

Lemma marked_monotone (m : gmap nat (gmap string bool)) (h h' : nat) (dir d : string) :
  let m' := <[h := <[dir := true]> (default ∅ (m !! h))]> m in
  (h' ≠ h -> m' !! h' = m !! h')
  ∧ (m !! h ≫= (.!! d) = Some true -> m' !! h ≫= (.!! d) = Some true).
Proof.
  cbv zeta. split.
  - intros Hne. by rewrite lookup_insert_ne.
  - intros Hd. rewrite lookup_marked. by case_bool_decide.
Qed.

Lemma runOp_cache (c : SFTPClient) (op : Op) (w : World (R:=R)) w' evs :
  runOp T doesMatch dirname c op w = (w', evs) ->
  (∀ d, checked c d w = Some true -> checked c d w' = Some true)
  ∧ (∀ c' d, client c' ≠ client c -> checked c' d w' = checked c' d w).
Proof.
  destruct op as [path data|path|path|path]; cbn [runOp].
  - destruct (uploadFile _ _ _ _ _ _ _) as [[res w1] evs1] eqn:Hrun.
    intros [= <- <-].
    destruct (uploadFile_run_full _ _ _ _ _ _ _ Hrun) as
      (rdir & w0 & evsDir & logs & rest & Hdir & Hsame & _ & _).
    unfold checked. rewrite Hsame.
    destruct (checkRemoteDir_cache _ _ _ _ _ _ Hdir) as [-> | ->]; [done|].
    split.
    + intros d. apply marked_monotone. exact 0.
    + intros c' d Hne. by rewrite lookup_insert_ne.
  - destruct (listDirectory _ _ _ _) as [[res w1] evs1] eqn:Hrun.
    intros [= <- <-]. unfold checked.
    by rewrite (listDirectory_keeps _ _ _ _ _ _ _ Hrun).
  - destruct (downloadFile _ _ _ _) as [[res w1] evs1] eqn:Hrun.
    intros [= <- <-]. unfold checked.
    by rewrite (downloadFile_keeps _ _ _ _ _ _ _ Hrun).
  - destruct (deleteFile _ _ _ _) as [[res w1] evs1] eqn:Hrun.
    intros [= <- <-]. unfold checked.
    by rewrite (deleteFile_keeps _ _ _ _ _ _ _ Hrun).
Qed.

(** X9: whatever a session does, the directories it has marked stay marked,
    and the marks of every other client are left as they are. *)
Theorem checkedRemoteDirs_grow_and_are_private (c : SFTPClient) (ops : list Op)
    (w : World (R:=R)) w' evs :
  runOps T doesMatch dirname c ops w = (w', evs) ->
  (∀ d, checked c d w = Some true -> checked c d w' = Some true)
  ∧ (∀ c' d, client c' ≠ client c -> checked c' d w' = checked c' d w).
Proof.
  revert w evs. induction ops as [|op ops IH]; intros w evs; cbn [runOps].
  - by intros [= <- <-].
  - destruct (runOp _ _ _ _ op w) as [w1 evs1] eqn:Hop.
    destruct (runOps _ _ _ _ ops w1) as [w2 evs2] eqn:Hops.
    intros [= <- <-].
    destruct (runOp_cache _ _ _ _ _ Hop) as [Hkeep Hother].
    destruct (IH _ _ Hops) as [Hkeep' Hother'].
    split.
    + intros d Hd. by apply Hkeep', Hkeep.
    + intros c' d Hne. by rewrite Hother', Hother.
Qed.

(** X10: uploading into a directory that does not exist yet: the listing
    fails, the directory is created recursively, the file is written, and
    the directory is marked. *)
Theorem uploadFile_creates_missing_directory (c : SFTPClient) (path : string)
    (data : Buffer) (w : World (R:=R)) e1 r1 r2 r3 :
  let dir := toSFTPPath (dirname path) in
  let p := toSFTPPath path in
  checked c dir w ≠ Some true ->
  sftp_list T dir (remote w) = (inl e1, r1) ->
  sftp_mkdir T dir true r1 = (None, r2) ->
  modes (options c) = None ->
  sftp_put T data p r2 = (None, r3) ->
  ∃ w',
    uploadFile T doesMatch dirname c path data w
    = (Ok tt, w',
       [List (client c) dir false; Mkdir (client c) dir true None;
        Put (client c) data p None])
    ∧ remote w' = r3
    ∧ checked c dir w' = Some true.
Proof.
  intros dir p Hmiss Hlist Hmkdir Hmodes Hput.
  unfold uploadFile, promise, tryCatch. unfold bind at 1. fold dir p.
  unfold checkRemoteDir.
  destruct (checked c dir w) as [[|]|]; [done| |];
    unfold bind, tryCatch, list_, call, ret, markChecked; rewrite Hlist;
    cbn -[insert lookup]; rewrite Hmkdir; cbn -[insert lookup];
    rewrite findMode_without_modes by done; cbn -[insert lookup];
    rewrite Hput; cbn -[insert lookup];
    (eexists; split; [reflexivity|]); (split; [done|]);
    unfold checked; cbn -[insert lookup]; rewrite lookup_marked;
    by rewrite bool_decide_eq_true_2.
Qed.

(** X11: a single mode value stands for the one pattern ['**/*']: the mode is
    set for the paths that ['/**/*'] matches and for no other, and it is
    the value read in octal. *)
Theorem modeToSet_single_value (opts : SFTPConnectionOptions) (m : SFTPFileMode)
    (path : string) :
  modes opts = Some (SingleMode m) ->
  modeToSet doesMatch opts path
  = if doesMatch path "/**/*"
    then Some (JS.parseInt8 (JS.trim (modeText (Some m))))
    else None.
Proof.
  intros Hm. unfold modeToSet, fileModesOf. rewrite Hm. cbn [mbind option_bind].
  change (JS.forInKeys [("**/*", m)]) with ["**/*"]. cbn [matchMode].
  change (rooted "**/*") with "/**/*". by destruct (doesMatch path "/**/*").
Qed.

End UploadMore.

(** *** More on downloads *)

Section DownloadMore.
Import Sftp Props.

Lemma deliver_while_data (before rest : list StreamEvent) (acc : Buffer) :
  Forall (fun ev => isData ev = true) before ->
  deliverUntilSettled (before ++ rest)
    {| outer := None; inner := None; tmpFile := Some acc;
       onStreamError := true; onPipeError := true; onEnd := true |}
  = deliverUntilSettled rest
      {| outer := None; inner := None; tmpFile := Some (acc ++ bytesOf before);
         onStreamError := true; onPipeError := true; onEnd := true |}.
Proof.
  intros Hdata. revert acc. induction Hdata as [|ev before Hev _ IH]; intros acc.
  - cbn. by rewrite app_nil_r.
  - destruct ev; try done. cbn [app deliverUntilSettled outer onEvent].
    cbn [inner tmpFile onStreamError onPipeError onEnd fmap option_fmap option_map].
    rewrite IH. unfold bytesOf. cbn [map concat chunkOf]. by rewrite app_assoc.
Qed.

(** X12: after any events, the temporary file is gone exactly when the staging
    body has settled; the staging body never settles without the download
    settling too; and a download that resolved with data got them from the
    staging body. *)
Theorem download_staged (evs : list StreamEvent) :
  staged (deliver evs startDownload).
Proof.
  assert (Hstep : ∀ d ev, staged d -> staged (onEvent d ev)).
  { intros [o i t se pe en] ev (Htmp & Hinner & Hdata). cbn in *.
    destruct Htmp as [Hgone Hleft].
    destruct i as [x|], t as [b|];
      try (by specialize (Hleft ltac:(done)));
      try (exfalso; by apply Hgone);
      destruct o as [y|]; try (exfalso; by apply Hinner);
      destruct ev as [chunk|[e|]|e|e], se, pe, en; cbn; unfold staged; cbn;
      repeat split; intros; simplify_eq; try done;
      try (by apply Hdata); by specialize (Hdata _ eq_refl). }
  unfold deliver. assert (Hstart : staged startDownload).
  { unfold staged. cbn. repeat split; done. }
  revert Hstart. generalize startDownload.
  induction evs as [|ev evs IH]; intros d Hd; [done|].
  cbn [fold_left]. by apply IH, Hstep.
Qed.

(** X13: the first event of the stream that is not data decides a download:
    an end resolves it with the bytes received before, and an error of the
    write stream or of the read-back rejects it, in both cases after the
    temporary file was removed; an error of the remote stream rejects it
    with the temporary file left behind. *)
Theorem downloadFile_first_event_decides {R} (T : Transport R) (c : SFTPClient)
    (path : string) (w : World (R:=R)) (before after : list StreamEvent)
    (ev : StreamEvent) (r : R) :
  sftp_get T (toSFTPPath path) (remote w) = (inr (before ++ ev :: after), r) ->
  Forall (fun ev => isData ev = true) before ->
  isData ev = false ->
  let res := (downloadFile T c path w).1.1 in
  let tmp := tmpFiles (downloadFile T c path w).1.2 !! nextTmp w in
  match ev with
  | StreamEnd None => res = Ok (bytesOf before) ∧ tmp = None
  | StreamEnd (Some e) => res = Throw e ∧ tmp = None
  | PipeError e => res = Throw e ∧ tmp = None
  | StreamError e => res = Throw e ∧ tmp = Some (bytesOf before)
  | StreamData _ => False
  end.
Proof.
  intros Hget Hdata Hev. cbv zeta. unfold downloadFile. rewrite Hget.
  unfold startDownload. rewrite deliver_while_data by done.
  destruct ev as [chunk|[e|]|e|e]; [done|..]; destruct after;
    cbn -[lookup insert delete];
    by rewrite ?lookup_insert_eq, ?lookup_delete_eq.
Qed.

Lemma only_data_unsettled (evs : list StreamEvent) (acc : Buffer) :
  let d := deliverUntilSettled evs
             {| outer := None; inner := None; tmpFile := Some acc;
                onStreamError := true; onPipeError := true; onEnd := true |} in
  (outer d = None ↔ Forall (fun ev => isData ev = true) evs)
  ∧ (outer d = None -> tmpFile d = Some (acc ++ bytesOf evs)).
Proof.
  cbv zeta. revert acc. induction evs as [|ev evs IH]; intros acc.
  - cbn. rewrite app_nil_r. repeat split; done.
  - destruct ev as [chunk|[e|]|e|e].
    + cbn [deliverUntilSettled outer onEvent].
      cbn [inner tmpFile onStreamError onPipeError onEnd fmap option_fmap option_map].
      destruct (IH (acc ++ chunk)) as [IH1 IH2]. split.
      * rewrite IH1. split; [by constructor|]. by intros [_ ?]%Forall_cons.
      * intros Hd. etrans; [exact (IH2 Hd)|].
        unfold bytesOf. cbn [map concat chunkOf]. by rewrite app_assoc.
    + destruct evs; cbn; (split; [split; [done|by intros [? _]%Forall_cons]|done]).
    + destruct evs; cbn; (split; [split; [done|by intros [? _]%Forall_cons]|done]).
    + destruct evs; cbn; (split; [split; [done|by intros [? _]%Forall_cons]|done]).
    + destruct evs; cbn; (split; [split; [done|by intros [? _]%Forall_cons]|done]).
Qed.

(** X14: a download stays pending exactly when the stream of the remote file
    delivers data and then neither ends nor fails; the temporary file then
    stays on disk with the bytes received. *)
Theorem downloadFile_pending_iff_only_data {R} (T : Transport R) (c : SFTPClient)
    (path : string) (w : World (R:=R)) (stream : list StreamEvent) (r : R) :
  sftp_get T (toSFTPPath path) (remote w) = (inr stream, r) ->
  ((downloadFile T c path w).1.1 = Pending
   ↔ Forall (fun ev => isData ev = true) stream)
  ∧ ((downloadFile T c path w).1.1 = Pending ->
     tmpFiles (downloadFile T c path w).1.2 !! nextTmp w = Some (bytesOf stream)).
Proof.
  intros Hget. unfold downloadFile. rewrite Hget. unfold startDownload.
  destruct (only_data_unsettled stream []) as [Hiff Htmp]. cbv zeta in Hiff, Htmp.
  cbn -[lookup insert delete deliverUntilSettled].
  destruct (outer (deliverUntilSettled stream _)) as [[e|data]|] eqn:Ho.
  - split; [|done]. rewrite <- Hiff. done.
  - split; [|done]. rewrite <- Hiff. done.
  - split; [by rewrite <- Hiff|]. intros _. specialize (Htmp eq_refl).
    unfold Buffer in *. rewrite Htmp. by rewrite lookup_insert_eq.
Qed.

Lemma resolved_by_end (evs : list StreamEvent) (acc data : Buffer) :
  let d := deliverUntilSettled evs
             {| outer := None; inner := None; tmpFile := Some acc;
                onStreamError := true; onPipeError := true; onEnd := true |} in
  outer d = Some (inr data) ->
  tmpFile d = None
  ∧ ∃ before after,
      evs = before ++ StreamEnd None :: after
      ∧ Forall (fun ev => isData ev = true) before
      ∧ data = acc ++ bytesOf before.
Proof.
  cbv zeta. revert acc. induction evs as [|ev evs IH]; intros acc; [done|].
  destruct ev as [chunk|[e|]|e|e].
  - cbn [deliverUntilSettled outer onEvent].
    cbn [inner tmpFile onStreamError onPipeError onEnd fmap option_fmap option_map].
    intros Hd. destruct (IH _ Hd) as (Htmp & before & after & -> & Hdata & ->).
    split; [done|]. exists (StreamData chunk :: before), after.
    split; [done|]. split; [by constructor|].
    unfold bytesOf. cbn [map concat chunkOf]. by rewrite app_assoc.
  - destruct evs; by cbn.
  - destruct evs; cbn; intros [= <-]; (split; [done|]);
      eexists [], _; rewrite app_nil_r; by repeat split.
  - destruct evs; by cbn.
  - destruct evs; by cbn.
Qed.

(** X15: whenever a download resolves, the stream has ended, the bytes
    returned are the data that arrived up to the end, in order, and the
    temporary file is gone. *)
Theorem downloadFile_resolved {R} (T : Transport R) (c : SFTPClient)
    (path : string) (w : World (R:=R)) (stream : list StreamEvent) (r : R)
    (data : Buffer) :
  sftp_get T (toSFTPPath path) (remote w) = (inr stream, r) ->
  (downloadFile T c path w).1.1 = Ok data ->
  tmpFiles (downloadFile T c path w).1.2 !! nextTmp w = None
  ∧ ∃ before after,
      stream = before ++ StreamEnd None :: after
      ∧ Forall (fun ev => isData ev = true) before
      ∧ data = bytesOf before.
Proof.
  intros Hget. unfold downloadFile. rewrite Hget. unfold startDownload.
  pose proof (resolved_by_end stream []) as Hres. cbv zeta in Hres.
  cbn -[lookup insert delete deliverUntilSettled].
  destruct (outer (deliverUntilSettled stream _)) as [[e|data']|] eqn:Ho; try done.
  intros [= ->]. destruct (Hres _ eq_refl) as (Htmp & Hshape).
  unfold Buffer in *. rewrite Htmp. by rewrite lookup_delete_eq.
Qed.

End DownloadMore.

(** *** Deleting, listing and connecting *)

Section SessionMore.
Import Sftp Props.
Context {R : Type} (T : Transport R).

(** X1: [deleteFile] never rejects: it makes one [delete] call on the
    converted path and resolves to whether that call succeeded; the marks
    of the directories and the temporary files are left alone. *)
Theorem deleteFile_never_rejects (c : SFTPClient) (path : string)
    (w : World (R:=R)) :
  ∃ (deleted : bool) (err : option Err) w',
    deleteFile T c path w
    = (Ok deleted, w', [Delete (client c) (toSFTPPath path) err])
    ∧ (deleted = true ↔ err = None)
    ∧ err = (sftp_delete T (toSFTPPath path) (remote w)).1
    ∧ checkedRemoteDirs w' = checkedRemoteDirs w
    ∧ tmpFiles w' = tmpFiles w.
Proof.
  unfold deleteFile, tryCatch, bind, call, ret.
  destruct (sftp_delete T (toSFTPPath path) (remote w)) as [[e|] r];
    cbn; eexists _, _, _; repeat split; try done.
Qed.

(** X16: [listDirectory] is lazy: whatever the listing contains, it makes the
    one [list] call and nothing else; no session is opened and no file is
    read until a [download] is invoked. A failure of the call is the
    failure of [listDirectory]. *)
Theorem listDirectory_single_call (ME : SFTPClient) (path : string)
    (w : World (R:=R)) :
  let run := listDirectory T ME path w in
  ∃ ok, run.2 = [List (client ME) (toSFTPPath path) ok]
        ∧ (ok = false ↔ ∃ e, run.1.1 = Throw e
                             ∧ (sftp_list T (toSFTPPath path) (remote w)).1 = inl e)
        ∧ nextClient run.1.2 = nextClient w
        ∧ checkedRemoteDirs run.1.2 = checkedRemoteDirs w
        ∧ tmpFiles run.1.2 = tmpFiles w.
Proof.
  cbv zeta. unfold listDirectory, bind, list_, ret.
  destruct (sftp_list T (toSFTPPath path) (remote w)) as [[e|l] r]; cbn.
  - exists false. repeat split; by eauto.
  - exists true. split; [done|]. split; [|done]. split; [done|].
    by intros (e & ? & ?).
Qed.


(** X18: every invocation of the [download] of a listed file uses up one new
    client: all its calls are made on the transport of that client, and
    the directories marked by the listing client stay as they are. Two
    invocations in a row therefore use two different sessions. *)
Theorem download_uses_a_new_client_each_time (ME : SFTPClient) (p : string)
    (FI : RawEntry) (w : World (R:=R)) res w1 evs :
  download T ME p FI w = (res, w1, evs) ->
  client ME < nextClient w ->
  nextClient w1 = S (nextClient w)
  ∧ Forall (fun ev => handleOf ev = None ∨ handleOf ev = Some (nextClient w)) evs
  ∧ (∀ d, checked ME d w1 = checked ME d w).
Proof.
  intros Hrun Hold.
  unfold download, openConnection, bind, createClient, connect, call, ret,
    tryFinally, tryCatch, end_, call, log, emit, downloadFile in Hrun.
  cbn -[hostVerifier insert lookup delete deliverUntilSettled] in Hrun.
  destruct (hostVerifier _ _).
  2: { injection Hrun as <- <- <-. cbn -[insert lookup].
       repeat split; [repeat constructor; by right|].
       intros d. unfold checked. cbn -[insert lookup].
       rewrite lookup_insert_ne by lia. done. }
  destruct (sftp_connect T _ (remote w)) as [[e|] r].
  { injection Hrun as <- <- <-. cbn -[insert lookup].
    repeat split; [repeat constructor; by right|].
    intros d. unfold checked. cbn -[insert lookup].
    rewrite lookup_insert_ne by lia. done. }
  cbn -[hostVerifier insert lookup delete deliverUntilSettled] in Hrun.
  destruct (sftp_get T _ r) as [[e|stream] r2];
    cbn -[hostVerifier insert lookup delete deliverUntilSettled] in Hrun.
  - destruct (sftp_end T r2) as [[e'|] r3];
      cbn -[hostVerifier insert lookup delete] in Hrun;
      injection Hrun as <- <- <-; cbn -[insert lookup];
      (repeat split; [repeat constructor; by right|]);
      intros d; unfold checked; cbn -[insert lookup];
      by rewrite lookup_insert_ne by lia.
  - destruct (outer (deliverUntilSettled stream startDownload)) as [[e|data]|];
      [destruct (sftp_end T r2) as [[e'|] r3]|
       destruct (sftp_end T r2) as [[e'|] r3]|];
      cbn -[hostVerifier insert lookup delete deliverUntilSettled] in Hrun;
      injection Hrun as <- <- <-; cbn -[insert lookup delete deliverUntilSettled];
      (repeat split; [repeat constructor; by right|]);
      intros d; unfold checked; cbn -[insert lookup delete deliverUntilSettled];
      by rewrite lookup_insert_ne by lia.
Qed.

End SessionMore.

(** *** Normalized digests *)

Section Normalized.
Import Sftp Props.

Lemma lowerChar_idem (c : ascii) : JS.lowerChar (JS.lowerChar c) = JS.lowerChar c.
Proof. destruct c as [[] [] [] [] [] [] [] []]; reflexivity. Qed.

Lemma isWhiteSpace_lower (c : ascii) :
  JS.isWhiteSpace (JS.lowerChar c) = JS.isWhiteSpace c.
Proof. destruct c as [[] [] [] [] [] [] [] []]; reflexivity. Qed.

Lemma trimStart_lower (l : list ascii) :
  map JS.lowerChar (JS.trimStart l) = JS.trimStart (map JS.lowerChar l).
Proof.
  induction l as [|c l IH]; [done|]. cbn [JS.trimStart map].
  rewrite isWhiteSpace_lower. by destruct (JS.isWhiteSpace c).
Qed.

Lemma trimEnd_lower (l : list ascii) :
  map JS.lowerChar (JS.trimEnd l) = JS.trimEnd (map JS.lowerChar l).
Proof. unfold JS.trimEnd. by rewrite map_rev, trimStart_lower, map_rev. Qed.

Lemma trimStart_split (l : list ascii) :
  ∃ blanks, l = blanks ++ JS.trimStart l.
Proof.
  induction l as [|c l [blanks IH]]; [by exists []|]. cbn [JS.trimStart].
  destruct (JS.isWhiteSpace c); [|by exists []].
  exists (c :: blanks). cbn [app]. by rewrite <- IH.
Qed.

Lemma trimStart_head (l : list ascii) :
  match JS.trimStart l with [] => True | c :: _ => JS.isWhiteSpace c = false end.
Proof.
  induction l as [|c l IH]; [done|]. cbn [JS.trimStart].
  by destruct (JS.isWhiteSpace c) eqn:Hc.
Qed.

Lemma trimStart_clean (l : list ascii) :
  match l with [] => True | c :: _ => JS.isWhiteSpace c = false end ->
  JS.trimStart l = l.
Proof. destruct l as [|c l]; [done|]. cbn [JS.trimStart]. by intros ->. Qed.

Lemma trimEnd_split (l : list ascii) : ∃ blanks, l = JS.trimEnd l ++ blanks.
Proof.
  unfold JS.trimEnd. destruct (trimStart_split (rev l)) as [blanks Hl].
  exists (rev blanks). rewrite <- rev_app_distr, <- Hl. by rewrite rev_involutive.
Qed.

Lemma trimEnd_head (l : list ascii) :
  match l with [] => True | c :: _ => JS.isWhiteSpace c = false end ->
  match JS.trimEnd l with [] => True | c :: _ => JS.isWhiteSpace c = false end.
Proof.
  intros Hl. destruct (trimEnd_split l) as [blanks Hsplit].
  destruct (JS.trimEnd l) as [|c t]; [done|]. rewrite Hsplit in Hl. exact Hl.
Qed.

Lemma trimEnd_idem (l : list ascii) : JS.trimEnd (JS.trimEnd l) = JS.trimEnd l.
Proof.
  unfold JS.trimEnd. rewrite rev_involutive. f_equal.
  apply trimStart_clean, trimStart_head.
Qed.

Lemma normalizeString_list (s : string) :
  list_ascii_of_string (Helpers.normalizeString s)
  = JS.trimEnd (JS.trimStart (map JS.lowerChar (list_ascii_of_string s))).
Proof.
  unfold Helpers.normalizeString, JS.trim, JS.toLowerCase.
  by rewrite !list_ascii_of_string_of_list_ascii.
Qed.

(** Normalizing twice is normalizing once. *)
Lemma normalizeString_idem (s : string) :
  Helpers.normalizeString (Helpers.normalizeString s) = Helpers.normalizeString s.
Proof.
  rewrite <- (string_of_list_ascii_of_string (Helpers.normalizeString (_ s))).
  rewrite <- (string_of_list_ascii_of_string (Helpers.normalizeString s)) at 2.
  f_equal. rewrite normalizeString_list. rewrite !normalizeString_list.
  rewrite trimEnd_lower, trimStart_lower, map_map.
  rewrite (map_ext _ _ lowerChar_idem).
  rewrite (trimStart_clean (JS.trimEnd _)) by apply trimEnd_head, trimStart_head.
  apply trimEnd_idem.
Qed.

(** X19: the verifier compares digests without regard to case and surrounding
    white space, on both sides: a key is accepted exactly when its
    normalized digest is, and writing the accepted digests in normalized
    form changes nothing. *)
Theorem hostVerifier_compares_normalized (opts opts' : SFTPConnectionOptions)
    (keyHash : string) :
  Helpers.asArray (hashes opts')
  = map Helpers.normalizeString (Helpers.asArray (hashes opts)) ->
  hostVerifier opts (Helpers.normalizeString keyHash) = hostVerifier opts keyHash
  ∧ hostVerifier opts' keyHash = hostVerifier opts keyHash.
Proof.
  intros Hsame. split.
  - by rewrite !hostVerifier_member, normalizeString_idem.
  - assert (Hs : supportedHashes opts' = supportedHashes opts).
    { unfold supportedHashes. rewrite Hsame, map_map.
      by rewrite (map_ext _ _ normalizeString_idem). }
    by rewrite !hostVerifier_member, Hs.
Qed.

End Normalized.

(** *** Modes in octal *)

Section Octal.
Import Sftp Props.










End Octal.

(** *** The further properties on concrete runs *)

Section MoreRuns.
Import Sftp Props Scripted.

Lemma uploadFile_touches_only_target_witness :
  let opts := withModes (SingleMode (ModeString "644")) in
  let run := uploadFile (transport allFine) Glob.doesMatch Path.dirname
               (client0 opts) "a/b.txt" [Byte.x68] world0 in
  Forall (uploadStep 0 "/a" "/a/b.txt" [Byte.x68] (Some (JS.Int 420))) run.2
  ∧ (List.length (List.filter isPut run.2) ≤ 1)%nat
  ∧ (List.length (List.filter isChmod run.2) ≤ 1)%nat.
Proof.
  intros opts run.
  apply (uploadFile_touches_only_target (transport allFine) Glob.doesMatch
           Path.dirname (client0 opts) "a/b.txt" [Byte.x68] world0
           run.1.1 run.1.2 run.2).
  apply run_eta.
Defined.

Lemma uploadFile_without_modes_witness :
  let run := uploadFile (transport allFine) Glob.doesMatch Path.dirname
               (client0 noOptions) "a/b.txt" [Byte.x68] world0 in
  List.filter isChmod run.2 = [] ∧ List.filter isLog run.2 = []
  ∧ (run.1.1 = Ok tt ↔ Put 0 [Byte.x68] "/a/b.txt" None ∈ run.2).
Proof.
  intros run.
  apply (uploadFile_without_modes (transport allFine) Glob.doesMatch
           Path.dirname (client0 noOptions) "a/b.txt" [Byte.x68] world0
           run.1.1 run.1.2 run.2).
  - reflexivity.
  - apply run_eta.
Defined.

Lemma uploadFile_no_match_notice_witness :
  let opts := withModes (ModePatterns [("*.sh", ModeString "755")]) in
  let run := uploadFile (transport allFine) Glob.doesMatch Path.dirname
               (client0 opts) "a/b.txt" [Byte.x68] world0 in
  List.filter isChmod run.2 = []
  ∧ ∀ err, Put 0 [Byte.x68] "/a/b.txt" err ∈ run.2 ->
      ∃ before after,
        run.2 = before ++
                Log notice (Text "'/a/b.txt' does NOT match with a mode pattern")
                  "clients.sftp.uploadFile(3)" ::
                Put 0 [Byte.x68] "/a/b.txt" err :: after.
Proof.
  intros opts run.
  apply (uploadFile_no_match_notice (transport allFine) Glob.doesMatch
           Path.dirname (client0 opts) "a/b.txt" [Byte.x68] world0
           run.1.1 run.1.2 run.2).
  - discriminate.
  - reflexivity.
  - apply run_eta.
Defined.

Lemma uploadFile_mkdir_failure_witness :
  uploadFile (transport mkdirDenied) Glob.doesMatch Path.dirname
    (client0 noOptions) "a/b.txt" [Byte.x68] world0
  = (Throw (Error "EACCES"), setRemote tt world0,
     [List 0 "/a" false; Mkdir 0 "/a" true (Some (Error "EACCES"))]).
Proof.
  apply (uploadFile_mkdir_failure (transport mkdirDenied) Glob.doesMatch
           Path.dirname (client0 noOptions) "a/b.txt" [Byte.x68] world0
           (Error "No such file") tt (Error "EACCES") tt).
  - discriminate.
  - reflexivity.
  - reflexivity.
Defined.

Lemma uploadFile_put_failure_witness :
  let run := uploadFile (transport putDenied) Glob.doesMatch Path.dirname
               (client0 noOptions) "a/b.txt" [Byte.x68] world0 in
  run.1.1 = Throw (Error "EACCES")
  ∧ List.filter isChmod run.2 = []
  ∧ checked (client0 noOptions) "/a" run.1.2 = Some true.
Proof.
  intros run.
  apply (uploadFile_put_failure (transport putDenied) Glob.doesMatch
           Path.dirname (client0 noOptions) "a/b.txt" [Byte.x68] world0
           run.1.1 run.1.2 run.2 (Error "EACCES")).
  - apply run_eta.
  - vm_compute. repeat constructor.
Defined.

Lemma uploadFile_sibling_skips_check_witness :
  let c := client0 noOptions in
  let first := uploadFile (transport putDenied) Glob.doesMatch Path.dirname c
                 "a/b.txt" [Byte.x68] world0 in
  let second := uploadFile (transport putDenied) Glob.doesMatch Path.dirname c
                  "a/c.txt" [Byte.x69] first.1.2 in
  Forall (fun ev => dirEvent ev = false) second.2.
Proof.
  intros c first second. apply Forall_forall.
  apply (uploadFile_sibling_skips_check (transport putDenied) Glob.doesMatch
           Path.dirname c "a/b.txt" "a/c.txt" [Byte.x68] [Byte.x69] world0
           first.1.1 first.1.2 first.2 (Some (Error "EACCES"))
           second.1.1 second.1.2 second.2).
  - apply run_eta.
  - vm_compute. repeat constructor.
  - reflexivity.
  - apply run_eta.
Defined.

Lemma checkedRemoteDirs_grow_and_are_private_witness :
  let c := client0 noOptions in
  let other := {| options := noOptions; client := 1 |} in
  let first := runOps (transport allFine) Glob.doesMatch Path.dirname c
                 [Upload "a/b.txt" []] world0 in
  let later := runOps (transport allFine) Glob.doesMatch Path.dirname c
                 [DeleteFile "a/b.txt"; Upload "c/d.txt" []; ListDir "a"] first.1 in
  (checked c "/a" first.1 = Some true -> checked c "/a" later.1 = Some true)
  ∧ checked other "/a" later.1 = checked other "/a" first.1.
Proof.
  intros c other first later.
  destruct (checkedRemoteDirs_grow_and_are_private (transport allFine)
              Glob.doesMatch Path.dirname c
              [DeleteFile "a/b.txt"; Upload "c/d.txt" []; ListDir "a"]
              first.1 later.1 later.2) as [Hkeep Hother].
  - apply run_eta2.
  - split; [apply Hkeep|apply Hother]. cbn. lia.
Defined.

Lemma downloadFile_first_event_decides_witness :
  let events := [StreamData [Byte.x01]; StreamData [Byte.x02];
                 PipeError (Error "ENOSPC"); StreamEnd None] in
  let run := downloadFile (transport (withStream events)) (client0 noOptions)
               "a/b.bin" world0 in
  run.1.1 = Throw (Error "ENOSPC") ∧ tmpFiles run.1.2 !! 0%nat = None.
Proof.
  intros events run.
  apply (downloadFile_first_event_decides (transport (withStream events))
           (client0 noOptions) "a/b.bin" world0
           [StreamData [Byte.x01]; StreamData [Byte.x02]] [StreamEnd None]
           (PipeError (Error "ENOSPC")) tt).
  - reflexivity.
  - repeat constructor.
  - reflexivity.
Defined.

Lemma downloadFile_pending_iff_only_data_witness :
  let events := [StreamData [Byte.x01]; StreamData [Byte.x02]] in
  let run := downloadFile (transport (withStream events)) (client0 noOptions)
               "a/b.bin" world0 in
  (run.1.1 = Pending ↔ Forall (fun ev => isData ev = true) events)
  ∧ (run.1.1 = Pending -> tmpFiles run.1.2 !! 0%nat = Some [Byte.x01; Byte.x02]).
Proof.
  intros events run.
  apply (downloadFile_pending_iff_only_data (transport (withStream events))
           (client0 noOptions) "a/b.bin" world0 events tt).
  reflexivity.
Defined.

Lemma downloadFile_resolved_witness :
  let events := [StreamData [Byte.x01]; StreamData [Byte.x02]; StreamEnd None] in
  let run := downloadFile (transport (withStream events)) (client0 noOptions)
               "a/b.bin" world0 in
  tmpFiles run.1.2 !! 0%nat = None
  ∧ ∃ before after,
      events = before ++ StreamEnd None :: after
      ∧ Forall (fun ev => isData ev = true) before
      ∧ [Byte.x01; Byte.x02] = bytesOf before.
Proof.
  intros events run.
  apply (downloadFile_resolved (transport (withStream events))
           (client0 noOptions) "a/b.bin" world0 events tt [Byte.x01; Byte.x02]).
  - reflexivity.
  - reflexivity.
Defined.


Lemma download_uses_a_new_client_each_time_witness :
  let ME := client0 noOptions in
  let FI := {| raw_name := "a.txt"; raw_type := "-"; raw_size := 3;
               raw_modifyTime := 2 |} in
  let first := download (transport allFine) ME "/srv" FI world0 in
  let second := download (transport allFine) ME "/srv" FI first.1.2 in
  Forall (fun ev => handleOf ev = None ∨ handleOf ev = Some 1) first.2
  ∧ Forall (fun ev => handleOf ev = None ∨ handleOf ev = Some 2) second.2.
Proof.
  intros ME FI first second.
  destruct (download_uses_a_new_client_each_time (transport allFine) ME "/srv" FI
              world0 first.1.1 first.1.2 first.2) as (Hnext & Hfirst & _).
  - apply run_eta.
  - cbn. lia.
  - destruct (download_uses_a_new_client_each_time (transport allFine) ME "/srv" FI
                first.1.2 second.1.1 second.1.2 second.2) as (_ & Hsecond & _).
    + apply run_eta.
    + rewrite Hnext. cbn. lia.
    + rewrite Hnext in Hsecond. split; [exact Hfirst|exact Hsecond].
Defined.

Lemma hostVerifier_compares_normalized_witness :
  hostVerifier (withHashes [" ABC123 "]) "abc123"
  = hostVerifier (withHashes [" ABC123 "]) "Abc123"
  ∧ hostVerifier (withHashes ["abc123"]) "abc123"
    = hostVerifier (withHashes [" ABC123 "]) "abc123".
Proof.
  destruct (hostVerifier_compares_normalized (withHashes [" ABC123 "])
              (withHashes ["abc123"]) "Abc123") as [Hkey _].
  - reflexivity.
  - destruct (hostVerifier_compares_normalized (withHashes [" ABC123 "])
                (withHashes ["abc123"]) "abc123") as [_ Hlist].
    + reflexivity.
    + split; [exact Hkey|exact Hlist].
Defined.

Lemma uploadFile_creates_missing_directory_witness :
  ∃ w',
    uploadFile (transport missingDir) Glob.doesMatch Path.dirname
      (client0 noOptions) "a/b.txt" [Byte.x68] world0
    = (Ok tt, w',
       [List 0 "/a" false; Mkdir 0 "/a" true None; Put 0 [Byte.x68] "/a/b.txt" None])
    ∧ remote w' = tt
    ∧ checked (client0 noOptions) "/a" w' = Some true.
Proof.
  apply (uploadFile_creates_missing_directory (transport missingDir)
           Glob.doesMatch Path.dirname (client0 noOptions) "a/b.txt" [Byte.x68]
           world0 (Error "No such file") tt tt tt).
  - discriminate.
  - reflexivity.
  - reflexivity.
  - reflexivity.
  - reflexivity.
Defined.

Lemma modeToSet_single_value_witness :
  modeToSet Glob.doesMatch (withModes (SingleMode (ModeNumber 644))) "/a/b.txt"
  = Some (JS.Int 420).
Proof.
  apply (modeToSet_single_value Glob.doesMatch
           (withModes (SingleMode (ModeNumber 644))) (ModeNumber 644) "/a/b.txt").
  reflexivity.
Defined.

End MoreRuns.
